(** * apistar.apischema: schema generation from the route table

    A shallow embedding of [src/apistar/apischema.py] and the properties of
    [get_schema_url], [get_schema_content], [get_link] and [render_form].

    Python objects with identity (the route list, the view functions, the
    list [fields] and the dictionary [content] the code builds) live in a
    heap indexed by addresses; the functions of the module run in a state
    and exception monad over that heap.  Immutable values (strings, [Route]
    tuples, [Field] and [Link] value objects, classes) are plain values. *)

From Stdlib Require Import Ascii.
From stdpp Require Import base option list strings gmap fin_maps.

Open Scope string_scope.
Open Scope list_scope.

(** ** Python values *)

(** Object identity. *)
Definition addr := positive.

(** A class object, identified by its qualified name.  [cls_ancestors] lists
    the names of its proper ancestors in method resolution order, so that
    [__mro__] starts with the class itself. *)
Record class := Class {
  cls_name : string;
  cls_ancestors : list string
}.

Definition __mro__ (c : class) : list string := cls_name c :: cls_ancestors c.

#[global] Instance class_eq_dec : EqDecision class.
Proof. solve_decision. Defined.

(** The values that occur as annotations and as attribute values: classes;
    objects that are not classes but have a [__bases__] tuple, such as the
    generic alias [list[int]], given by the names of the classes reachable
    through [__bases__]; and a few kinds of objects without [__bases__]. *)
Inductive pyobj :=
  | PyClass (c : class)
  | PyAlias (reachable : list string)
  | PyNone
  | PyBool (b : bool)
  | PyInt (n : Z)
  | PyStr (s : string).

#[global] Instance pyobj_eq_dec : EqDecision pyobj.
Proof. solve_decision. Defined.

(** Truth value testing, as [if x:] and [x or y] do it. *)
Definition truthy (o : pyobj) : bool :=
  match o with
  | PyClass _ => true
  | PyAlias _ => true
  | PyNone => false
  | PyBool b => b
  | PyInt n => negb (Z.eqb n 0)
  | PyStr s => negb (String.eqb s "")
  end.

(** The builtin classes. *)
Definition object_ : class := Class "object" [].
Definition str : class := Class "str" ["object"].

Inductive exception := TypeError | AttributeError.

#[global] Instance exception_eq_dec : EqDecision exception.
Proof. solve_decision. Defined.

Inductive result (A : Type) :=
  | Return (a : A)
  | Raise (e : exception).
Arguments Return {A} a.
Arguments Raise {A} e.

(** [issubclass(x, C)] for a class [C]: membership of [C] in the method
    resolution order of [x] when [x] is a class; for another object with a
    [__bases__] tuple, whether [C] is reached through [__bases__];
    [TypeError] when [x] has no [__bases__]. *)
Definition issubclass (x : pyobj) (c : class) : result bool :=
  match x with
  | PyClass k => Return (bool_decide (cls_name c ∈ __mro__ k))
  | PyAlias reachable => Return (bool_decide (cls_name c ∈ reachable))
  | _ => Raise TypeError
  end.

(** The objects [issubclass] accepts as its first argument: those with a
    [__bases__] tuple. *)
Definition has_bases (x : pyobj) : bool :=
  match x with
  | PyClass _ | PyAlias _ => true
  | _ => false
  end.

(** [issubclass(x, (C1, ..., Cn))] for a tuple of classes: the items are
    tried in order until one answers [True] or raises; nothing is tested, and
    the answer is [False], when the tuple is empty. *)
Fixpoint issubclass_tuple (x : pyobj) (cs : list class) : result bool :=
  match cs with
  | [] => Return false
  | c :: cs' =>
      match issubclass x c with
      | Return true => Return true
      | Return false => issubclass_tuple x cs'
      | Raise e => Raise e
      end
  end.

(** [x in (C1, ..., Cn)] for a tuple of classes: equality on classes is
    identity, and an object that is not a class equals none of them. *)
Definition in_tuple (x : pyobj) (cs : list class) : bool :=
  match x with
  | PyClass k => existsb (λ c, bool_decide (cls_name c = cls_name k)) cs
  | _ => false
  end.

(** ** The borrowed value objects *)

(** [coreschema]: the schema classes this module instantiates. *)
Module coreschema.
#[local] Set Warnings "-register-all".
Inductive schema :=
  | String
  | Object (properties : gmap string schema) (required : list string).
End coreschema.

(** [coreapi.Field]: a named tuple; [schema] is [None] by default. *)
Record Field := mkField {
  field_name : string;
  field_location : string;
  field_required : bool;
  field_schema : option coreschema.schema
}.

(** [coreapi.Link]: an immutable value object; its constructor stores
    [tuple(fields)]. *)
Record Link := mkLink {
  link_url : string;
  link_action : string;
  link_fields : list Field
}.

(** [inspect.Parameter]: [annotation] is [None] for [inspect.Signature.empty]. *)
Record parameter := mkParameter {
  param_name : string;
  param_annotation : option pyobj
}.

(** A callable object, as introspection sees it: a function, or another
    callable such as a [functools.partial] or an instance with [__call__].
    [__name__] is [None] when the object has no such attribute, as is the
    case for the latter two; [parameters] are the parameters
    [inspect.signature] reports for it, in order; [__dict__] holds its other
    attributes. *)
Record function := mkFunction {
  __name__ : option string;
  parameters : list parameter;
  __dict__ : gmap string pyobj
}.

(** [apistar.routing.Route]: the named tuple [(path, method, view)]; the view
    is a reference to a callable object. *)
Record Route := mkRoute {
  path : string;
  method : string;
  view : addr
}.

#[global] Instance parameter_eq_dec : EqDecision parameter.
Proof. solve_decision. Defined.

#[global] Instance Route_eq_dec : EqDecision Route.
Proof. solve_decision. Defined.

(** ** The heap *)

Inductive object :=
  | ObjFunction (f : function)
  | ObjRoutes (rs : list Route)
  | ObjFields (fs : list Field)
  | ObjContent (d : gmap string Link).

Abbreviation heap := (gmap addr object).

(** ** The state and exception monad *)

Definition M (A : Type) : Type := heap → result A * heap.

#[global] Instance M_ret : MRet M := λ A a h, (Return a, h).

#[global] Instance M_bind : MBind M := λ A B k m h,
  match m h with
  | (Return a, h') => k a h'
  | (Raise e, h') => (Raise e, h')
  end.

Definition lift {A} (r : result A) : M A := λ h, (r, h).

(** [for x in xs: body(x)]: the body runs on each element in order; an
    exception ends the loop. *)
Fixpoint for_each {A} (xs : list A) (body : A → M unit) : M unit :=
  match xs with
  | [] => mret tt
  | x :: xs' => body x;; for_each xs' body
  end.

(** *** Reading objects *)

(** Iterating over the [routes] argument, declared [List[Route]]: the items
    of the list object; any other object is not such a list. *)
Definition iter_routes (routes : addr) : M (list Route) :=
  λ h, match h !! routes with
       | Some (ObjRoutes rs) => (Return rs, h)
       | _ => (Raise TypeError, h)
       end.

(** [getattr(o, name, default)]. *)
Definition getattr_default (o : addr) (name : string) (dflt : pyobj) : M pyobj :=
  λ h, match h !! o with
       | Some (ObjFunction f) => (Return (default dflt (__dict__ f !! name)), h)
       | _ => (Return dflt, h)
       end.

(** [o.__name__]. *)
Definition get___name__ (o : addr) : M string :=
  λ h, match h !! o with
       | Some (ObjFunction f) =>
           match __name__ f with
           | Some name => (Return name, h)
           | None => (Raise AttributeError, h)
           end
       | _ => (Raise AttributeError, h)
       end.

(** [inspect.signature(o).parameters.values()]; [TypeError] when [o] is not
    callable. *)
Definition inspect_signature (o : addr) : M (list parameter) :=
  λ h, match h !! o with
       | Some (ObjFunction f) => (Return (parameters f), h)
       | _ => (Raise TypeError, h)
       end.

(** *** Allocating and updating objects *)

Definition alloc (o : object) : M addr :=
  λ h, let a := fresh (dom h) in (Return a, <[a := o]> h).

(** [fields.append(field)]. *)
Definition list_append (l : addr) (x : Field) : M unit :=
  λ h, match h !! l with
       | Some (ObjFields fs) => (Return tt, <[l := ObjFields (fs ++ [x])]> h)
       | _ => (Raise AttributeError, h)
       end.

(** [tuple(fields)]. *)
Definition list_items (l : addr) : M (list Field) :=
  λ h, match h !! l with
       | Some (ObjFields fs) => (Return fs, h)
       | _ => (Raise TypeError, h)
       end.

(** [content[name] = link]. *)
Definition dict_setitem (d : addr) (k : string) (v : Link) : M unit :=
  λ h, match h !! d with
       | Some (ObjContent m) => (Return tt, <[d := ObjContent (<[k := v]> m)]> h)
       | _ => (Raise TypeError, h)
       end.

(** ** What the module imports *)

(** The names [apischema.py] imports from other modules and libraries:
    [URITemplate(path).variable_names] of [uritemplate], [urljoin] of
    [urllib.parse], [primitive_types] and [schema_types] of
    [apistar.routing], [schema.Object] of [apistar.schema],
    [coreschema.render_to_form], and the classes [coreapi.Document] and
    [apistar.templating.Templates]. *)
Class Imports := {
  variable_names : string → list string;
  urljoin : option string → string → string;
  primitive_types : list class;
  schema_types : list class;
  schema_Object : class;
  render_to_form : coreschema.schema → string;
  Document : class;
  Templates : class
}.

(** The addresses of the function objects the module defines. *)
Class Globals := {
  serve_schema : addr;
  serve_schema_js : addr;
  serve_docs : addr
}.

(** Modelled from the spec: [apistar.decorators.exclude_from_schema] is not
    part of this file; a view "marked exclude_from_schema" is one whose
    attribute of that name is set to [True] by the decorator. *)
Definition exclude_from_schema (func : function) : function :=
  {| __name__ := __name__ func;
     parameters := parameters func;
     __dict__ := <["exclude_from_schema" := PyBool true]> (__dict__ func) |}.

(** [apistar.app.App], as far as this module reads it: [app.routes]. *)
Record App := mkApp {
  App_routes : addr
}.

(** An [APISchema] document, a [coreapi.Document]: its url and its
    content. *)
Record document := mkDocument {
  document_url : string;
  document_content : gmap string Link
}.

Section apischema.
Context `{Imports} `{Globals}.

(** [class APISchema(Document)]. *)
Definition APISchema : class := Class "APISchema" (__mro__ Document).

(** ** The functions of the module *)

Fixpoint get_schema_url_loop (rs : list Route) (base_url : option string)
    : M (option string) :=
  match rs with
  | [] => mret None
  | route :: rs' =>
      if bool_decide (view route = serve_schema)
      then mret (Some (urljoin base_url (path route)))
      else get_schema_url_loop rs' base_url
  end.

Definition get_schema_url (routes : addr) (base_url : option string)
    : M (option string) :=
  rs ← iter_routes routes;
  get_schema_url_loop rs base_url.

Definition get_link (route : Route) : M Link :=
  let '(mkRoute path method view) := route in
  view_signature ← inspect_signature view;
  let uritemplate := variable_names path in
  fields ← alloc (ObjFields []);
  for_each view_signature (λ param,
    let annotated_type :=
      match param_annotation param with
      | None => PyClass str
      | Some annotation => annotation
      end in
    let param_schema := coreschema.String in
    '(location, required) ←
      (if bool_decide (param_name param ∈ uritemplate)
       then mret (Some "path", true)
       else
         typed ← (if in_tuple annotated_type primitive_types
                  then mret true
                  else lift (issubclass_tuple annotated_type schema_types));
         if (typed : bool) then
           if bool_decide (method ∈ ["POST"; "PUT"; "PATCH"])
           then
             is_object ← lift (issubclass annotated_type schema_Object);
             if (is_object : bool)
             then mret (Some "body", true)
             else mret (Some "form", false)
           else mret (Some "query", false)
         else mret (None, false));
    match location with
    | Some location =>
        list_append fields
          (mkField (param_name param) location required (Some param_schema))
    | None => mret tt
    end);;
  fields ← list_items fields;
  mret (mkLink path method fields).

Definition get_schema_content (routes : addr) : M addr :=
  content ← alloc (ObjContent ∅);
  rs ← iter_routes routes;
  for_each rs (λ route,
    let view := view route in
    excluded ← getattr_default view "exclude_from_schema" (PyBool false);
    if truthy excluded then mret tt
    else
      name ← get___name__ view;
      link ← get_link route;
      dict_setitem content name link);;
  mret content.

(** [dict(pairs)]: later pairs replace earlier ones with the same key. *)
Definition dict {V} (pairs : list (string * V)) : gmap string V :=
  foldl (λ d kv, <[kv.1 := kv.2]> d) ∅ pairs.

(** The local [schema] of [render_form]. *)
Definition render_form_schema (link : Link) : coreschema.schema :=
  let properties :=
    dict (map (λ field,
                 (field_name field,
                  default coreschema.String (field_schema field)))
              (link_fields link)) in
  let required := [] in
  coreschema.Object properties required.

Definition render_form (link : Link) : string :=
  render_to_form (render_form_schema link).

(** The function objects of the three decorated endpoints, as
    introspection sees them. *)
Definition def_serve_schema : function :=
  exclude_from_schema
    {| __name__ := Some "serve_schema";
       parameters := [mkParameter "schema" (Some (PyClass APISchema))];
       __dict__ := ∅ |}.

Definition def_serve_schema_js : function :=
  exclude_from_schema
    {| __name__ := Some "serve_schema_js";
       parameters := [mkParameter "schema" (Some (PyClass APISchema));
                      mkParameter "templates" (Some (PyClass Templates))];
       __dict__ := ∅ |}.

Definition def_serve_docs : function :=
  exclude_from_schema
    {| __name__ := Some "serve_docs";
       parameters := [mkParameter "schema" (Some (PyClass APISchema));
                      mkParameter "templates" (Some (PyClass Templates))];
       __dict__ := ∅ |}.

(** A heap in which the module has been imported. *)
Definition module_loaded (h : heap) : Prop :=
  h !! serve_schema = Some (ObjFunction def_serve_schema) ∧
  h !! serve_schema_js = Some (ObjFunction def_serve_schema_js) ∧
  h !! serve_docs = Some (ObjFunction def_serve_docs).

(** [content.items()], as the constructor of [coreapi.Document] reads the
    dictionary it is given. *)
Definition dict_items (d : addr) : M (gmap string Link) :=
  λ h, match h !! d with
       | Some (ObjContent m) => (Return m, h)
       | _ => (Raise AttributeError, h)
       end.

(** [APISchema.build]: [cls(url=url, content=content)] is the document made
    of the url, for which the constructor of [coreapi.Document] stores ['']
    when it is given [None], and of the items of [content]. *)
Definition build (app : App) (base_url : option string) : M document :=
  let routes := App_routes app in
  url ← get_schema_url routes base_url;
  content ← get_schema_content routes;
  content ← dict_items content;
  mret (mkDocument (default "" url) content).


End apischema.

(** ** A functional reading of the loops

    The value each loop computes, as a function of the function objects the
    heap holds.  The lemmas below show that running the monadic code yields
    exactly these values. *)

Definition function_at (h : heap) (a : addr) : option function :=
  match h !! a with
  | Some (ObjFunction f) => Some f
  | _ => None
  end.

(** The items a loop appends to [acc], and the exception that ended the loop
    early, if any; [g] gives what one iteration contributes. *)
Fixpoint collect {A B} (g : A → result (option B)) (xs : list A) (acc : list B)
    : list B * option exception :=
  match xs with
  | [] => (acc, None)
  | x :: xs' =>
      match g x with
      | Raise e => (acc, Some e)
      | Return None => collect g xs' acc
      | Return (Some b) => collect g xs' (acc ++ [b])
      end
  end.

(** What an iteration contributes when it does not raise. *)
Definition contribution {B} (r : result (option B)) : option B :=
  match r with
  | Return o => o
  | Raise _ => None
  end.

Section reading.
Context `{Imports} `{Globals}.

(** The type used for classification: the annotation, or [str]. *)
Definition annotated_type (param : parameter) : pyobj :=
  match param_annotation param with
  | None => PyClass str
  | Some annotation => annotation
  end.

(** The test of line 77: a primitive type or a subclass of the schema
    types. *)
Definition is_typed (param : parameter) : result bool :=
  if in_tuple (annotated_type param) primitive_types then Return true
  else issubclass_tuple (annotated_type param) schema_types.

Definition location_of (path method : string) (param : parameter)
    : result (option string * bool) :=
  if bool_decide (param_name param ∈ variable_names path)
  then Return (Some "path", true)
  else
    match is_typed param with
    | Raise e => Raise e
    | Return false => Return (None, false)
    | Return true =>
        if bool_decide (method ∈ ["POST"; "PUT"; "PATCH"])
        then
          match issubclass (annotated_type param) schema_Object with
          | Raise e => Raise e
          | Return true => Return (Some "body", true)
          | Return false => Return (Some "form", false)
          end
        else Return (Some "query", false)
    end.

Definition field_of (path method : string) (param : parameter)
    : result (option Field) :=
  match location_of path method param with
  | Raise e => Raise e
  | Return (None, _) => Return None
  | Return (Some location, required) =>
      Return (Some (mkField (param_name param) location required
                            (Some coreschema.String)))
  end.

Definition link_of (fn : option function) (route : Route) : result Link :=
  match fn with
  | None => Raise TypeError
  | Some f =>
      match collect (field_of (path route) (method route)) (parameters f) [] with
      | (fields, None) => Return (mkLink (path route) (method route) fields)
      | (_, Some e) => Raise e
      end
  end.

#[global] Arguments link_of : simpl never.

(** A view with a truthy [exclude_from_schema] attribute. *)
Definition view_excluded (h : heap) (v : addr) : bool :=
  match function_at h v with
  | Some f => truthy (default (PyBool false) (__dict__ f !! "exclude_from_schema"))
  | None => false
  end.

(** The [__name__] of the object at an address, if it has one. *)
Definition name_at (h : heap) (v : addr) : option string :=
  match function_at h v with
  | Some f => __name__ f
  | None => None
  end.

(** What one route contributes to [content]. *)
Definition entry_of (h : heap) (route : Route) : result (option (string * Link)) :=
  if view_excluded h (view route) then Return None
  else
    match name_at h (view route) with
    | None => Raise AttributeError
    | Some name =>
        match link_of (function_at h (view route)) route with
        | Raise e => Raise e
        | Return link => Return (Some (name, link))
        end
    end.

Definition content_of (h : heap) (rs : list Route) : result (gmap string Link) :=
  match collect (entry_of h) rs [] with
  | (pairs, None) => Return (dict pairs)
  | (_, Some e) => Raise e
  end.

(** The dictionary a call of [get_schema_content] returns, read from the
    heap it leaves. *)
Definition returned_content (r : result addr * heap) : result (gmap string Link) :=
  match r.1 with
  | Raise e => Raise e
  | Return content =>
      match r.2 !! content with
      | Some (ObjContent d) => Return d
      | _ => Raise TypeError
      end
  end.

End reading.

(** ** A concrete environment and application *)

Module Example.

(** The variables of a template made of literal text and plain [{name}]
    expressions. *)
Fixpoint braces (s : string) (cur : option string) : list string :=
  match s with
  | EmptyString => []
  | String c s' =>
      match cur with
      | None =>
          if Ascii.eqb c "{"%char then braces s' (Some "") else braces s' None
      | Some v =>
          if Ascii.eqb c "}"%char then v :: braces s' None
          else braces s' (Some (String.append v (String c EmptyString)))
      end
  end.

Definition int : class := Class "int" ["object"].
Definition float : class := Class "float" ["object"].
Definition dict_ : class := Class "dict" ["object"].
Definition schema_String : class := Class "schema.String" ["str"; "object"].
Definition schema_Integer : class := Class "schema.Integer" ["int"; "object"].
Definition schema_Object_ : class := Class "schema.Object" ["dict"; "object"].

(** [class User(schema.Object)] and a class that is not a schema type. *)
Definition User : class :=
  Class "User" ["schema.Object"; "dict"; "object"].
Definition Request : class := Class "http.Request" ["object"].

#[global] Instance imports : Imports := {|
  variable_names p := braces p None;
  urljoin base url := String.append (default "" base) url;
  primitive_types := [str; int; float; dict_];
  schema_types := [schema_String; schema_Integer; schema_Object_];
  schema_Object := schema_Object_;
  render_to_form _ := "<form></form>";
  Document := Class "Document" ["object"];
  Templates := Class "Templates" ["object"]
|}.

#[global] Instance globals : Globals := {|
  serve_schema := 1%positive;
  serve_schema_js := 2%positive;
  serve_docs := 3%positive
|}.

(** Views of an application. *)
Definition get_user : function :=
  {| __name__ := Some "get_user";
     parameters := [mkParameter "user_id" (Some (PyClass int));
                    mkParameter "verbose" None;
                    mkParameter "request" (Some (PyClass Request))];
     __dict__ := ∅ |}.

Definition create_user : function :=
  {| __name__ := Some "create_user";
     parameters := [mkParameter "user" (Some (PyClass User));
                    mkParameter "note" (Some (PyClass str))];
     __dict__ := ∅ |}.

(** A view with a forward reference written as a string. *)
Definition list_users : function :=
  {| __name__ := Some "list_users";
     parameters := [mkParameter "page" (Some (PyStr "Page"))];
     __dict__ := ∅ |}.

(** Two views called [ping] in different modules, one of them hidden. *)
Definition ping : function :=
  {| __name__ := Some "ping"; parameters := []; __dict__ := ∅ |}.

Definition admin_ping : function :=
  exclude_from_schema
    {| __name__ := Some "ping";
       parameters := [mkParameter "request" (Some (PyClass Request))];
       __dict__ := ∅ |}.

Definition routes : addr := 10%positive.
Definition mounted_twice : addr := 11%positive.
Definition ping_routes : addr := 12%positive.

(** Routes of the application. *)
Definition get_user_route : Route := mkRoute "/users/{user_id}" "GET" 4%positive.
Definition create_user_route : Route := mkRoute "/users" "POST" 5%positive.
Definition list_users_route : Route := mkRoute "/users" "GET" 6%positive.
Definition second_mount : Route := mkRoute "/accounts/{account}" "GET" 4%positive.
Definition admin_ping_route : Route := mkRoute "/admin/ping" "GET" 8%positive.
Definition ping_route : Route := mkRoute "/ping" "GET" 7%positive.
Definition schema_route : Route := mkRoute "/schema" "GET" 1%positive.
Definition docs_route : Route := mkRoute "/docs" "GET" 3%positive.

(** The links [get_link] returns for two of them. *)
Definition get_user_link : Link :=
  mkLink "/users/{user_id}" "GET"
    [mkField "user_id" "path" true (Some coreschema.String);
     mkField "verbose" "query" false (Some coreschema.String)].

Definition create_user_link : Link :=
  mkLink "/users" "POST"
    [mkField "user" "body" true (Some coreschema.String);
     mkField "note" "form" false (Some coreschema.String)].

Definition app_content : gmap string Link :=
  dict [("get_user", get_user_link); ("create_user", create_user_link)].

Definition app_routes : list Route :=
  [get_user_route; create_user_route; schema_route; docs_route].

Definition app_heap : heap :=
  list_to_map
    [(1%positive, ObjFunction def_serve_schema);
     (2%positive, ObjFunction def_serve_schema_js);
     (3%positive, ObjFunction def_serve_docs);
     (4%positive, ObjFunction get_user);
     (5%positive, ObjFunction create_user);
     (6%positive, ObjFunction list_users);
     (7%positive, ObjFunction ping);
     (8%positive, ObjFunction admin_ping);
     (routes, ObjRoutes app_routes);
     (mounted_twice,
      ObjRoutes [get_user_route; second_mount]);
     (ping_routes,
      ObjRoutes [admin_ping_route; ping_route])].

(** The application object, a hidden copy of [get_user] under another name,
    and further route lists: one with a handler [get_link] cannot describe,
    and the two halves of [mounted_twice] and of [app_routes]. *)
Definition app : App := mkApp routes.

Definition get_user_hidden : function :=
  exclude_from_schema
    {| __name__ := Some "get_user_hidden";
       parameters := parameters get_user;
       __dict__ := ∅ |}.

Definition second_mount_link : Link :=
  mkLink "/accounts/{account}" "GET"
    [mkField "user_id" "query" false (Some coreschema.String);
     mkField "verbose" "query" false (Some coreschema.String)].

(** A [functools.partial] object used as a view: it has a signature and no
    [__name__]; and a view with a parameter annotated [list[int]]. *)
Definition partial_view : function :=
  {| __name__ := None;
     parameters := [mkParameter "page" (Some (PyClass int))];
     __dict__ := ∅ |}.

Definition search : function :=
  {| __name__ := Some "search";
     parameters := [mkParameter "tags" (Some (PyAlias ["object"]));
                    mkParameter "q" None];
     __dict__ := ∅ |}.

Definition partial_route : Route := mkRoute "/pages" "GET" 18%positive.
Definition search_route : Route := mkRoute "/search" "GET" 20%positive.
Definition partial_routes : addr := 19%positive.

Definition failing_routes : addr := 13%positive.
Definition first_mount_only : addr := 14%positive.
Definition second_mount_only : addr := 15%positive.
Definition user_routes : addr := 16%positive.
Definition endpoint_routes : addr := 17%positive.

Definition more_heap : heap :=
  <[18%positive := ObjFunction partial_view]>
  (<[partial_routes := ObjRoutes [get_user_route; partial_route]]>
  (<[20%positive := ObjFunction search]>
  (<[9%positive := ObjFunction get_user_hidden]>
    (<[failing_routes :=
         ObjRoutes [get_user_route; list_users_route; create_user_route]]>
       (<[first_mount_only := ObjRoutes [get_user_route]]>
          (<[second_mount_only := ObjRoutes [second_mount]]>
             (<[user_routes := ObjRoutes [get_user_route; create_user_route]]>
                (<[endpoint_routes := ObjRoutes [schema_route; docs_route]]>
                   app_heap)))))))).

End Example.

(** ** Lists and dictionaries *)

(** Decidable facts about the example are settled by evaluation. *)
Ltac by_computation := apply (bool_decide_unpack _); vm_compute; exact I.

(** A loop that ends normally has appended the contributions in order. *)
Lemma collect_normal {A B} (g : A → result (option B)) xs acc :
  (collect g xs acc).2 = None →
  (collect g xs acc).1 = acc ++ omap (λ x, contribution (g x)) xs ∧
  ∀ x, x ∈ xs → ∃ o, g x = Return o.
Proof.
  revert acc. induction xs as [|x xs IH]; intros acc; simpl.
  - intros _. split; [by rewrite app_nil_r|]. by intros x ?%elem_of_nil.
  - destruct (g x) as [[b|]|e] eqn:Hx; simpl; [| |done]; intros Hn;
      destruct (IH _ Hn) as [-> Hall]; (split; [by rewrite <- ?app_assoc|]);
      intros y [->|Hy]%elem_of_cons; eauto.
Qed.

(** A loop whose iterations do not raise ends normally. *)
Lemma collect_total {A B} (g : A → result (option B)) xs acc :
  (∀ x, x ∈ xs → ∃ o, g x = Return o) → (collect g xs acc).2 = None.
Proof.
  revert acc. induction xs as [|x xs IH]; intros acc Hall; [done|]. simpl.
  destruct (Hall x) as [o ->]; [by left|].
  destruct o; apply IH; intros; apply Hall; by right.
Qed.

(** A loop that raises does so at the first iteration that raises. *)
Lemma collect_raises {A B} (g : A → result (option B)) xs acc e :
  (collect g xs acc).2 = Some e → ∃ x, x ∈ xs ∧ g x = Raise e.
Proof.
  revert acc. induction xs as [|x xs IH]; intros acc; simpl; [done|].
  destruct (g x) as [[b|]|e'] eqn:Hx; simpl.
  - intros (y & ? & ?)%IH. exists y. split; [by right|done].
  - intros (y & ? & ?)%IH. exists y. split; [by right|done].
  - intros [= ->]. exists x. split; [by left|done].
Qed.

Lemma dict_snoc {V} (l : list (string * V)) k v :
  dict (l ++ [(k, v)]) = <[k := v]> (dict l).
Proof. unfold dict. by rewrite foldl_app. Qed.

(** The entries of [dict pairs] are among the pairs. *)
Lemma dict_lookup_elem {V} (l : list (string * V)) k v :
  dict l !! k = Some v → (k, v) ∈ l.
Proof.
  induction l as [|[k' v'] l IH] using rev_ind.
  - unfold dict. simpl. by rewrite lookup_empty.
  - rewrite dict_snoc, lookup_insert. case_decide as Hk.
    + intros [= ->]. subst k'. apply elem_of_app. right. by left.
    + intros ?%IH. apply elem_of_app. by left.
Qed.

(** The last pair with a given key wins. *)
Lemma dict_lookup_last {V} (l1 l2 : list (string * V)) k v :
  k ∉ l2.*1 → dict (l1 ++ (k, v) :: l2) !! k = Some v.
Proof.
  induction l2 as [|[k' v'] l2 IH] using rev_ind; intros Hk.
  - by rewrite dict_snoc, lookup_insert_eq.
  - rewrite fmap_app, not_elem_of_app in Hk. destruct Hk as [Hk Hk'].
    replace (l1 ++ (k, v) :: l2 ++ [(k', v')])
      with ((l1 ++ (k, v) :: l2) ++ [(k', v')]) by by rewrite <- app_assoc.
    rewrite dict_snoc, lookup_insert_ne; [by apply IH|].
    intros ->. apply Hk'. by left.
Qed.

(** A key is bound exactly when some pair has it. *)
Lemma dict_lookup_None {V} (l : list (string * V)) k :
  dict l !! k = None ↔ k ∉ l.*1.
Proof.
  induction l as [|[k' v'] l IH] using rev_ind.
  - unfold dict. simpl. rewrite lookup_empty. split; [|done].
    by intros _ ?%elem_of_nil.
  - rewrite dict_snoc, fmap_app, not_elem_of_app, lookup_insert. simpl.
    case_decide as Hk.
    + subst k'. split; [done|]. intros [_ Hk]. destruct Hk. by left.
    + rewrite IH. split; [|tauto]. intros Hl. split; [done|].
      intros [->|[]%elem_of_nil]%elem_of_cons. done.
Qed.

(** ** Running the code *)

Section running.
Context `{Imports} `{Globals}.

Lemma bind_run {A B} (m : M A) (k : A → M B) (h : heap) :
  (m ≫= k) h =
    match m h with
    | (Return a, h') => k a h'
    | (Raise e, h') => (Raise e, h')
    end.
Proof. reflexivity. Qed.

Lemma function_at_Some h a f :
  function_at h a = Some f ↔ h !! a = Some (ObjFunction f).
Proof.
  unfold function_at. destruct (h !! a) as [[]|]; split; congruence.
Qed.

(** Binding a fresh address, or rebinding an address that holds no function,
    to an object that is not a function leaves [function_at] as it was. *)
Lemma function_at_insert h a o b :
  function_at h a = None → (∀ f, o ≠ ObjFunction f) →
  function_at (<[a := o]> h) b = function_at h b.
Proof.
  intros Ha Ho. unfold function_at in *.
  destruct (decide (a = b)) as [->|Hne].
  - rewrite lookup_insert_eq. destruct o; try done. by destruct (Ho f).
  - by rewrite lookup_insert_ne.
Qed.

Lemma fresh_lookup (h : heap) : h !! fresh (dom h) = None.
Proof. apply not_elem_of_dom, is_fresh. Qed.

Lemma function_at_fresh (h : heap) : function_at h (fresh (dom h)) = None.
Proof. unfold function_at. by rewrite fresh_lookup. Qed.

(** The loop of [get_link], for any body that appends what [g] says. *)
Lemma for_each_fields {A} (a : addr) (g : A → result (option Field))
    (body : A → M unit) :
  (∀ x h fs, h !! a = Some (ObjFields fs) →
     body x h =
       match g x with
       | Raise e => (Raise e, h)
       | Return None => (Return tt, h)
       | Return (Some fld) => (Return tt, <[a := ObjFields (fs ++ [fld])]> h)
       end) →
  ∀ xs h fs, h !! a = Some (ObjFields fs) →
    for_each xs body h =
      (match (collect g xs fs).2 with None => Return tt | Some e => Raise e end,
       <[a := ObjFields (collect g xs fs).1]> h).
Proof.
  intros Hbody xs. induction xs as [|x xs IH]; intros h fs Hfs; simpl.
  - by rewrite insert_id.
  - rewrite bind_run, (Hbody _ _ _ Hfs).
    destruct (g x) as [[fld|]|e]; simpl.
    + rewrite (IH _ (fs ++ [fld])) by apply lookup_insert_eq.
      by rewrite insert_insert_eq.
    + by apply IH.
    + by rewrite insert_id.
Qed.

(** One iteration of the loop of [get_link]. *)
Lemma location_run path method param (h : heap) :
  (if bool_decide (param_name param ∈ variable_names path)
   then mret (Some "path", true)
   else
     typed ← (if in_tuple (annotated_type param) primitive_types
              then mret true
              else lift (issubclass_tuple (annotated_type param) schema_types));
     if (typed : bool) then
       if bool_decide (method ∈ ["POST"; "PUT"; "PATCH"])
       then
         is_object ← lift (issubclass (annotated_type param) schema_Object);
         if (is_object : bool)
         then mret (Some "body", true)
         else mret (Some "form", false)
       else mret (Some "query", false)
     else mret (None, false)) h
  = (location_of path method param, h).
Proof.
  unfold location_of, is_typed.
  destruct (bool_decide (param_name param ∈ variable_names path)); [done|].
  rewrite bind_run.
  destruct (in_tuple _ _); simpl.
  - destruct (bool_decide (method ∈ _)); [|done].
    rewrite bind_run. unfold lift.
    by destruct (issubclass _ _) as [[]|].
  - unfold lift. destruct (issubclass_tuple _ _) as [[]|]; [|done..].
    destruct (bool_decide (method ∈ _)); [|done].
    rewrite bind_run. by destruct (issubclass _ _) as [[]|].
Qed.

(** [get_link] allocates the list [fields], fills it and returns the link
    [link_of] describes. *)
Lemma get_link_run route (h : heap) :
  get_link route h =
    match function_at h (view route) with
    | None => (Raise TypeError, h)
    | Some f =>
        (link_of (Some f) route,
         <[fresh (dom h) :=
             ObjFields (collect (field_of (path route) (method route))
                                (parameters f) []).1]> h)
    end.
Proof.
  destruct route as [path method view]. unfold get_link, link_of. simpl.
  rewrite bind_run. unfold inspect_signature, function_at.
  destruct (h !! view) as [[f| | |]|] eqn:Hview; try done.
  rewrite bind_run. unfold alloc at 1. cbv zeta.
  rewrite bind_run.
  rewrite (for_each_fields (fresh (dom h)) (field_of path method) _) with (fs := []).
  - rewrite insert_insert_eq.
    destruct (collect _ _ _) as [fs [e|]]; simpl; [done|].
    rewrite bind_run. unfold list_items. by rewrite lookup_insert_eq.
  - intros param h' fs Hfs. rewrite bind_run.
    fold (annotated_type param).
    rewrite (location_run path method param h'). unfold field_of.
    destruct (location_of path method param) as [[[location|] required]|e];
      [|done..].
    unfold list_append. by rewrite Hfs.
  - apply lookup_insert_eq.
Qed.

Lemma get_link_result route (h : heap) :
  (get_link route h).1 = link_of (function_at h (view route)) route.
Proof. rewrite get_link_run. by destruct (function_at h (view route)). Qed.

(** [get_link] only adds an object, which is not a function. *)
Lemma get_link_heap route (h : heap) :
  h ⊆ (get_link route h).2 ∧
  ∀ a, function_at (get_link route h).2 a = function_at h a.
Proof.
  rewrite get_link_run. destruct (function_at h (view route)); simpl; [|done].
  split.
  - apply insert_subseteq, fresh_lookup.
  - intros a. apply function_at_insert; [apply function_at_fresh|done].
Qed.

Lemma getattr_default_run v name dflt (h : heap) :
  getattr_default v name dflt h =
    (Return (match function_at h v with
             | Some f => default dflt (__dict__ f !! name)
             | None => dflt
             end), h).
Proof.
  unfold getattr_default, function_at. by destruct (h !! v) as [[]|].
Qed.

Lemma get___name___run v (h : heap) :
  get___name__ v h =
    (match name_at h v with
     | Some name => Return name
     | None => Raise AttributeError
     end, h).
Proof.
  unfold get___name__, name_at, function_at.
  destruct (h !! v) as [[f| | |]|]; try done. by destruct (__name__ f).
Qed.

Lemma truthy_getattr (h : heap) v :
  truthy (match function_at h v with
          | Some f => default (PyBool false) (__dict__ f !! "exclude_from_schema")
          | None => PyBool false
          end)
  = view_excluded h v.
Proof. unfold view_excluded. by destruct (function_at h v). Qed.

Lemma view_excluded_ext (h h' : heap) v :
  function_at h v = function_at h' v → view_excluded h v = view_excluded h' v.
Proof. unfold view_excluded. by intros ->. Qed.

Lemma entry_of_ext (h h' : heap) route :
  function_at h (view route) = function_at h' (view route) →
  entry_of h route = entry_of h' route.
Proof.
  intros E. unfold entry_of, name_at.
  by rewrite (view_excluded_ext h h' _ E), E.
Qed.

Lemma collect_ext {A B} (g g' : A → result (option B)) xs acc :
  (∀ x, x ∈ xs → g x = g' x) → collect g xs acc = collect g' xs acc.
Proof.
  revert acc. induction xs as [|x xs IH]; intros acc Hg; [done|]. simpl.
  rewrite <- (Hg x) by left.
  destruct (g x) as [[b|]|e]; [| |done]; apply IH; intros; apply Hg; by right.
Qed.

(** One iteration of the loop of [get_schema_content], on a heap whose
    functions are those of [h0] and where [content] holds [d]. *)
Lemma content_body_run (content : addr) (h0 h : heap) d route :
  h !! content = Some (ObjContent d) →
  (∀ a, function_at h a = function_at h0 a) →
  ∃ h',
    (excluded ← getattr_default (view route) "exclude_from_schema" (PyBool false);
     if truthy excluded then mret tt
     else
       name ← get___name__ (view route);
       link ← get_link route;
       dict_setitem content name link) h
    = (match entry_of h0 route with
       | Raise e => Raise e
       | Return _ => Return tt
       end, h') ∧
    h' !! content =
      Some (ObjContent (match entry_of h0 route with
                        | Return (Some (name, link)) => <[name := link]> d
                        | _ => d
                        end)) ∧
    (∀ a, function_at h' a = function_at h0 a) ∧
    (∀ a o, a ≠ content → h !! a = Some o → h' !! a = Some o).
Proof.
  intros Hc Hfn.
  rewrite <- (entry_of_ext h h0) by apply Hfn.
  rewrite bind_run, getattr_default_run. cbv beta iota.
  rewrite truthy_getattr. unfold entry_of.
  destruct (view_excluded h (view route)) eqn:Hex; [by exists h|].
  rewrite bind_run, get___name___run.
  destruct (name_at h (view route)) as [name|] eqn:Hname; [|by exists h].
  cbv beta iota. rewrite bind_run.
  - destruct (get_link_heap route h) as [Hsub Hfn'].
    pose proof (get_link_result route h) as Hres.
    destruct (get_link route h) as [r h1]. cbn [fst snd] in *. subst r.
    assert (h1 !! content = Some (ObjContent d)) as Hc1
      by (by eapply lookup_weaken).
    destruct (link_of (function_at h (view route)) route) as [link|e].
    + unfold dict_setitem. rewrite Hc1.
      eexists. split; [done|]. split; [by rewrite lookup_insert_eq|]. split.
      * intros a. rewrite <- Hfn, <- Hfn'.
        destruct (decide (content = a)) as [<-|Hne]; unfold function_at.
        -- by rewrite lookup_insert_eq, Hc1.
        -- by rewrite lookup_insert_ne.
      * intros a o Hne Ha. rewrite lookup_insert_ne by done.
        by eapply lookup_weaken.
    + exists h1. split; [done|]. split; [done|]. split.
      * intros a. by rewrite Hfn'.
      * intros a o _ Ha. by eapply lookup_weaken.
Qed.

(** The loop of [get_schema_content], for any body that behaves as
    [content_body_run] says. *)
Lemma for_each_content (content : addr) (h0 : heap) (body : Route → M unit) :
  (∀ route (h : heap) d,
     h !! content = Some (ObjContent d) →
     (∀ a, function_at h a = function_at h0 a) →
     ∃ h',
       body route h
       = (match entry_of h0 route with
          | Raise e => Raise e
          | Return _ => Return tt
          end, h') ∧
       h' !! content =
         Some (ObjContent (match entry_of h0 route with
                           | Return (Some (name, link)) => <[name := link]> d
                           | _ => d
                           end)) ∧
       (∀ a, function_at h' a = function_at h0 a) ∧
       (∀ a o, a ≠ content → h !! a = Some o → h' !! a = Some o)) →
  ∀ rs (h : heap) acc,
    h !! content = Some (ObjContent (dict acc)) →
    (∀ a, function_at h a = function_at h0 a) →
    ∃ h',
      for_each rs body h
      = (match (collect (entry_of h0) rs acc).2 with
         | None => Return tt
         | Some e => Raise e
         end, h') ∧
      h' !! content = Some (ObjContent (dict (collect (entry_of h0) rs acc).1)) ∧
      (∀ a, function_at h' a = function_at h0 a) ∧
      (∀ a o, a ≠ content → h !! a = Some o → h' !! a = Some o).
Proof.
  intros Hbody rs. induction rs as [|route rs IH]; intros h acc Hc Hfn.
  - by exists h.
  - simpl. rewrite bind_run.
    destruct (Hbody route h _ Hc Hfn) as (h1 & -> & Hc1 & Hfn1 & Hfr1).
    destruct (entry_of h0 route) as [[[name link]|]|e].
    + rewrite <- dict_snoc in Hc1.
      destruct (IH h1 _ Hc1 Hfn1) as (h2 & -> & Hc2 & Hfn2 & Hfr2).
      exists h2. repeat split; try done. intros a o Hne Ha. eauto.
    + destruct (IH h1 _ Hc1 Hfn1) as (h2 & -> & Hc2 & Hfn2 & Hfr2).
      exists h2. repeat split; try done. intros a o Hne Ha. eauto.
    + by exists h1.
Qed.

(** [get_schema_content] on a heap where [routes] is a list of routes. *)
Lemma get_schema_content_run routes rs (h : heap) :
  h !! routes = Some (ObjRoutes rs) →
  ∃ h',
    get_schema_content routes h
    = (match (collect (entry_of h) rs []).2 with
       | None => Return (fresh (dom h))
       | Some e => Raise e
       end, h') ∧
    h' !! fresh (dom h) = Some (ObjContent (dict (collect (entry_of h) rs []).1)) ∧
    (∀ a, function_at h' a = function_at h a) ∧
    h ⊆ h'.
Proof.
  intros Hrs. unfold get_schema_content.
  rewrite bind_run. unfold alloc at 1. cbv zeta.
  set (content := fresh (dom h)).
  assert (h !! content = None) as Hfresh by apply fresh_lookup.
  assert (routes ≠ content) as Hne by congruence.
  rewrite bind_run. unfold iter_routes at 1.
  rewrite lookup_insert_ne, Hrs by done. rewrite bind_run.
  edestruct (for_each_content content h) with (acc := @nil (string * Link))
    as (h' & -> & Hc & Hfn & Hfr).
  - intros route h1 d. apply (content_body_run content h h1 d route).
  - apply lookup_insert_eq.
  - intros a. apply function_at_insert; [|done].
    unfold function_at. by rewrite Hfresh.
  - exists h'. split; [by destruct (collect _ _ _).2|]. split; [done|].
    split; [done|].
    apply map_subseteq_spec. intros a o Ha. apply Hfr; [congruence|].
    rewrite lookup_insert_ne; [done|congruence].
Qed.

(** Without any assumption on [routes]: existing objects are kept. *)
Lemma get_schema_content_heap routes (h : heap) :
  h ⊆ (get_schema_content routes h).2.
Proof.
  destruct (h !! routes) as [[| rs | |]|] eqn:Hrs;
    try (unfold get_schema_content; rewrite bind_run; unfold alloc at 1;
         cbv zeta; rewrite bind_run; unfold iter_routes at 1;
         destruct (decide (fresh (dom h) = routes)) as [<-|Hne];
         [rewrite lookup_insert_eq|rewrite lookup_insert_ne, Hrs by done];
         apply insert_subseteq, fresh_lookup).
  destruct (get_schema_content_run routes rs h Hrs) as (h' & -> & _ & _ & Hsub).
  done.
Qed.

End running.

(** ** Properties of [get_link] *)

Section get_link_properties.
Context `{Imports} `{Globals}.

(** A link that is returned lists the contributions of the parameters. *)
Lemma get_link_returns route (h h' : heap) link :
  get_link route h = (Return link, h') →
  ∃ f, h !! view route = Some (ObjFunction f) ∧
       (∀ param, param ∈ parameters f →
          ∃ o, field_of (path route) (method route) param = Return o) ∧
       link = mkLink (path route) (method route)
                (omap (λ param, contribution (field_of (path route) (method route) param))
                      (parameters f)).
Proof.
  rewrite get_link_run.
  destruct (function_at h (view route)) as [f|] eqn:Hf; [|done].
  apply function_at_Some in Hf. unfold link_of.
  destruct (collect _ _ _) as [fs [e|]] eqn:Hc; [done|].
  intros [= <- _]. exists f.
  destruct (collect_normal (field_of (path route) (method route))
              (parameters f) []) as [Hfs Hall]; [by rewrite Hc|].
  rewrite Hc in Hfs. simpl in Hfs. by subst fs.
Qed.

(** A field carries the name of the parameter it describes. *)
Lemma field_of_name path method param field :
  contribution (field_of path method param) = Some field →
  field_name field = param_name param.
Proof.
  unfold field_of.
  destruct (location_of path method param) as [[[location|] required]|e];
    simpl; [|done..].
  by intros [= <-].
Qed.

Lemma filter_none {A} (P : A → Prop) `{∀ x, Decision (P x)} (l : list A) :
  (∀ x, x ∈ l → ¬ P x) → filter P l = [].
Proof.
  intros Hl. destruct (filter P l) as [|x l'] eqn:Hf; [done|].
  assert (x ∈ filter P l) as [HP Hx]%list_elem_of_filter by (rewrite Hf; by left).
  by destruct (Hl x Hx).
Qed.

(** Among the contributions of items with distinct keys, exactly one has the
    key of a given item. *)
Lemma filter_omap_key {A B} (key : A → string) (key' : B → string)
    (F : A → option B) xs x b :
  (∀ y b', F y = Some b' → key' b' = key y) →
  NoDup (key <$> xs) → x ∈ xs → F x = Some b →
  filter (λ b', key' b' = key x) (omap F xs) = [b].
Proof.
  intros Hkey. induction xs as [|y xs IH]; intros Hnd Hx Hb.
  - by apply elem_of_nil in Hx.
  - rewrite fmap_cons in Hnd. apply NoDup_cons in Hnd as [Hy Hnd].
    assert (∀ z, z ∈ xs → key z ≠ key y) as Hother.
    { intros z Hz Heq. apply Hy. rewrite <- Heq. by apply list_elem_of_fmap_2. }
    apply elem_of_cons in Hx as [->|Hx]; simpl.
    + rewrite Hb, filter_cons_True by eauto. f_equal.
      apply filter_none.
      intros b' (z & Hz & Hb')%list_elem_of_omap.
      rewrite (Hkey _ _ Hb'). by apply Hother.
    + destruct (F y) as [b'|] eqn:Hy'; [|by apply IH].
      rewrite filter_cons_False; [by apply IH|].
      rewrite (Hkey _ _ Hy'). intros Heq. by apply (Hother x).
Qed.

Lemma issubclass_has_bases x c :
  has_bases x = true → ∃ b, issubclass x c = Return b.
Proof. destruct x; simpl; try done; by eexists. Qed.

(** A parameter that passes the test of line 77 is annotated with an object
    that has [__bases__], so the second subclass test returns. *)
Lemma is_typed_has_bases param :
  is_typed param = Return true → has_bases (annotated_type param) = true.
Proof.
  unfold is_typed, in_tuple.
  destruct (annotated_type param); try done; by destruct schema_types.
Qed.

(** C1. A parameter that is not a variable of the URI template and whose
    annotated type (or [str], when there is no annotation) is a primitive type
    or a subclass of the schema types is described by exactly one field of
    the returned link: in ['body'] and required when the method is POST, PUT
    or PATCH and the type is a subclass of [schema.Object]; in ['form'] and
    not required when the method is one of these and the type is not such a
    subclass; in ['query'] and not required for any other method. *)
Theorem get_link_typed_parameter (h h' : heap) route f param link :
  h !! view route = Some (ObjFunction f) →
  NoDup (param_name <$> parameters f) →
  param ∈ parameters f →
  param_name param ∉ variable_names (path route) →
  in_tuple (annotated_type param) primitive_types = true ∨
    issubclass_tuple (annotated_type param) schema_types = Return true →
  get_link route h = (Return link, h') →
  filter (λ field, field_name field = param_name param) (link_fields link) =
    [if bool_decide (method route ∈ ["POST"; "PUT"; "PATCH"])
     then
       match issubclass (annotated_type param) schema_Object with
       | Return true =>
           mkField (param_name param) "body" true (Some coreschema.String)
       | _ => mkField (param_name param) "form" false (Some coreschema.String)
       end
     else mkField (param_name param) "query" false (Some coreschema.String)].
Proof.
  intros Hf Hnd Hparam Hvar Htyped Hrun.
  apply get_link_returns in Hrun as (f' & Hf' & _ & ->).
  rewrite Hf in Hf'. injection Hf' as <-. simpl.
  apply (filter_omap_key param_name field_name); [|done..|].
  { intros p fld. apply field_of_name. }
  assert (is_typed param = Return true) as Hty.
  { unfold is_typed. destruct Htyped as [->| ->]; [done|].
    by destruct (in_tuple _ _). }
  destruct (issubclass_has_bases _ schema_Object (is_typed_has_bases param Hty))
    as [b Hb].
  unfold field_of, location_of.
  rewrite bool_decide_eq_false_2, Hty by done.
  destruct (bool_decide (method route ∈ _)); [|done].
  rewrite Hb. by destruct b.
Qed.

(** C2. A parameter whose name is a variable of the URI template built from
    the route's path is described by exactly one field of the returned link,
    in ['path'] and required, whatever its annotation and the method. *)
Theorem get_link_path_parameter (h h' : heap) route f param link :
  h !! view route = Some (ObjFunction f) →
  NoDup (param_name <$> parameters f) →
  param ∈ parameters f →
  param_name param ∈ variable_names (path route) →
  get_link route h = (Return link, h') →
  filter (λ field, field_name field = param_name param) (link_fields link) =
    [mkField (param_name param) "path" true (Some coreschema.String)].
Proof.
  intros Hf Hnd Hparam Hvar Hrun.
  apply get_link_returns in Hrun as (f' & Hf' & _ & ->).
  rewrite Hf in Hf'. injection Hf' as <-. simpl.
  apply (filter_omap_key param_name field_name); [|done..|].
  { intros p fld. apply field_of_name. }
  unfold field_of, location_of. by rewrite bool_decide_eq_true_2.
Qed.

Lemma collect_congr {A B} (g : A → result (option B)) l1 x x' l2 acc :
  g x = g x' → collect g (l1 ++ x :: l2) acc = collect g (l1 ++ x' :: l2) acc.
Proof.
  intros Hg. revert acc. induction l1 as [|y l1 IH]; intros acc; simpl.
  - by rewrite Hg.
  - by destruct (g y) as [[b|]|e].
Qed.

Lemma field_of_schema path method param field :
  contribution (field_of path method param) = Some field →
  field_schema field = Some coreschema.String.
Proof.
  unfold field_of.
  destruct (location_of path method param) as [[[location|] required]|e];
    simpl; [|done..].
  by intros [= <-].
Qed.

Lemma issubclass_tuple_has_bases x cs :
  has_bases x = true → ∃ b, issubclass_tuple x cs = Return b.
Proof.
  intros Hx. induction cs as [|c cs IH]; simpl; [by eexists|].
  destruct (issubclass_has_bases x c Hx) as [[] ->]; [by eexists|done].
Qed.

(** Among the contributions of items with distinct keys, those with the key
    of a given item are the contribution of that item. *)
Lemma filter_omap_item {A B} (key : A → string) (key' : B → string)
    (F : A → option B) xs x :
  (∀ y b', F y = Some b' → key' b' = key y) →
  NoDup (key <$> xs) → x ∈ xs →
  filter (λ b', key' b' = key x) (omap F xs) = option_list (F x).
Proof.
  intros Hkey Hnd Hx. destruct (F x) as [b|] eqn:Hb; simpl.
  - by apply filter_omap_key.
  - apply filter_none. intros b (y & Hy & Hb')%list_elem_of_omap Heq.
    rewrite (Hkey _ _ Hb') in Heq.
    apply list_elem_of_lookup in Hx as [i Hi].
    apply list_elem_of_lookup in Hy as [j Hj].
    assert (i = j) as ->.
    { apply (NoDup_lookup _ i j (key x) Hnd); rewrite list_lookup_fmap.
      - by rewrite Hi.
      - rewrite Hj. simpl. by rewrite Heq. }
    congruence.
Qed.

(** What the loop body computes for a parameter without annotation. *)
Lemma field_of_missing_annotation path method name :
  field_of path method (mkParameter name None) =
    if bool_decide (name ∈ variable_names path)
    then Return (Some (mkField name "path" true (Some coreschema.String)))
    else
      if in_tuple (PyClass str) primitive_types
         || match issubclass_tuple (PyClass str) schema_types with
            | Return true => true
            | _ => false
            end
      then
        Return
          (Some
             (if bool_decide (method ∈ ["POST"; "PUT"; "PATCH"])
              then
                match issubclass (PyClass str) schema_Object with
                | Return true =>
                    mkField name "body" true (Some coreschema.String)
                | _ => mkField name "form" false (Some coreschema.String)
                end
              else mkField name "query" false (Some coreschema.String)))
      else Return None.
Proof.
  unfold field_of, location_of, is_typed, annotated_type. cbn [param_name param_annotation].
  destruct (bool_decide (name ∈ variable_names path)); [done|].
  destruct (issubclass_tuple_has_bases (PyClass str) schema_types eq_refl)
    as [b ->].
  destruct (in_tuple (PyClass str) primitive_types), b; cbn [orb];
    try done;
    destruct (bool_decide (method ∈ _)); try done;
    cbn [issubclass];
    by destruct (bool_decide (cls_name schema_Object ∈ __mro__ str)).
Qed.

(** C3. A parameter without annotation is treated exactly as one annotated
    with [str].  The field of a returned link that describes it is the one
    the classification gives for the type [str]: a ['path'] field when its
    name is a variable of the URI template; otherwise, when [str] is a
    primitive type or a subclass of the schema types, a ['body'], ['form']
    or ['query'] field as for a parameter of type [str]; otherwise none.
    Replacing the missing annotation by [str] in the handler's signature
    does not change what [get_link] returns, and the schema of every field
    is the string schema. *)
Theorem get_link_missing_annotation (h h' : heap) route fname ps1 name ps2
    attrs link :
  let handler annotation :=
    mkFunction fname (ps1 ++ mkParameter name annotation :: ps2) attrs in
  h !! view route = Some (ObjFunction (handler None)) →
  NoDup (param_name <$> ps1 ++ mkParameter name None :: ps2) →
  get_link route h = (Return link, h') →
  filter (λ field, field_name field = name) (link_fields link) =
    (if bool_decide (name ∈ variable_names (path route))
     then [mkField name "path" true (Some coreschema.String)]
     else
       if in_tuple (PyClass str) primitive_types
          || match issubclass_tuple (PyClass str) schema_types with
             | Return true => true
             | _ => false
             end
       then
         [if bool_decide (method route ∈ ["POST"; "PUT"; "PATCH"])
          then
            match issubclass (PyClass str) schema_Object with
            | Return true => mkField name "body" true (Some coreschema.String)
            | _ => mkField name "form" false (Some coreschema.String)
            end
          else mkField name "query" false (Some coreschema.String)]
       else []) ∧
  (get_link route
     (<[view route := ObjFunction (handler (Some (PyClass str)))]> h)).1
    = Return link ∧
  Forall (λ field, field_schema field = Some coreschema.String)
         (link_fields link).
Proof.
  intros handler Hf Hnd Hrun. split; [|split].
  - apply get_link_returns in Hrun as (f' & Hf' & _ & ->).
    rewrite Hf in Hf'. injection Hf' as <-.
    cbn [link_fields parameters handler].
    rewrite (filter_omap_item param_name field_name _ _ (mkParameter name None));
      [|intros p fld; apply field_of_name|done|].
    + rewrite field_of_missing_annotation.
      destruct (bool_decide (name ∈ _)); [reflexivity|].
      destruct (in_tuple _ _ || _); reflexivity.
    + apply elem_of_app. right. by left.
  - assert ((get_link route h).1 = Return link) as <- by (by rewrite Hrun).
    rewrite !get_link_result. unfold function_at.
    rewrite Hf, lookup_insert_eq. unfold link_of. simpl.
    by rewrite (collect_congr _ ps1 (mkParameter name None)
                  (mkParameter name (Some (PyClass str)))).
  - apply get_link_returns in Hrun as (f & _ & _ & ->). simpl.
    apply Forall_forall. intros field (param & _ & Hfield)%list_elem_of_omap.
    by eapply field_of_schema.
Qed.

(** C5, as the code has it.  [get_link] returns a link for every route whose
    view is callable and each of whose parameters is a variable of the URI
    template, or has no annotation, or is annotated with a class or with
    another object that has a [__bases__] tuple. *)
Theorem get_link_returns_on_classes (h : heap) route f :
  h !! view route = Some (ObjFunction f) →
  (∀ param, param ∈ parameters f →
     param_name param ∈ variable_names (path route) ∨
     has_bases (annotated_type param) = true) →
  ∃ link h', get_link route h = (Return link, h').
Proof.
  intros Hf%function_at_Some Hparams. rewrite get_link_run, Hf.
  unfold link_of.
  pose proof (collect_total (field_of (path route) (method route))
                (parameters f) []) as Htotal.
  destruct (collect _ _ _) as [fs [e|]]; simpl in Htotal.
  - enough (Some e = None) by done. apply Htotal.
    intros param Hparam. unfold field_of, location_of, is_typed.
    destruct (Hparams param Hparam) as [Hvar|Hbases].
    { rewrite bool_decide_eq_true_2 by done. by eexists. }
    destruct (bool_decide (param_name param ∈ _)); [by eexists|].
    destruct (issubclass_tuple_has_bases _ schema_types Hbases) as [b ->].
    destruct (issubclass_has_bases _ schema_Object Hbases) as [b' ->].
    repeat case_match; try done; by eexists.
  - by eexists _, _.
Qed.

End get_link_properties.

(** ** Properties of [get_schema_content] *)

Section get_schema_content_properties.
Context `{Imports} `{Globals}.

Lemma returned_content_run routes rs (h : heap) :
  h !! routes = Some (ObjRoutes rs) →
  returned_content (get_schema_content routes h) = content_of h rs.
Proof.
  intros Hrs.
  destruct (get_schema_content_run routes rs h Hrs) as (h' & -> & Hc & _ & _).
  unfold returned_content, content_of.
  destruct (collect _ _ _) as [pairs [e|]]; simpl in *; [done|].
  by rewrite Hc.
Qed.

Lemma entry_of_excluded (h : heap) route :
  view_excluded h (view route) = true → entry_of h route = Return None.
Proof. unfold entry_of. by intros ->. Qed.

Lemma name_at_Some (h : heap) v name :
  name_at h v = Some name ↔
  ∃ f, h !! v = Some (ObjFunction f) ∧ __name__ f = Some name.
Proof.
  unfold name_at. split.
  - destruct (function_at h v) as [f|] eqn:Hf; [|done].
    apply function_at_Some in Hf. by exists f.
  - intros (f & Hf%function_at_Some & Hname). by rewrite Hf.
Qed.

Lemma entry_of_included (h : heap) route f name link :
  h !! view route = Some (ObjFunction f) →
  __name__ f = Some name →
  view_excluded h (view route) = false →
  (get_link route h).1 = Return link →
  entry_of h route = Return (Some (name, link)).
Proof.
  intros Hf Hname Hex. rewrite get_link_result.
  unfold entry_of. rewrite Hex.
  rewrite (proj2 (name_at_Some h (view route) name)) by by exists f.
  by intros ->.
Qed.

Lemma entry_of_contribution (h : heap) route name link :
  contribution (entry_of h route) = Some (name, link) →
  view_excluded h (view route) = false ∧
  ∃ f, h !! view route = Some (ObjFunction f) ∧ __name__ f = Some name ∧
       (get_link route h).1 = Return link.
Proof.
  unfold entry_of. rewrite get_link_result.
  destruct (view_excluded h (view route)); [done|].
  destruct (name_at h (view route)) as [name'|] eqn:Hname; [|done].
  destruct (link_of (function_at h (view route)) route) as [l|e]; [|done].
  simpl. intros [= <- <-]. split; [done|].
  apply name_at_Some in Hname as (f & Hf & Hname). by exists f.
Qed.

(** The entry under the name of the last included route with that name. *)
Lemma content_of_last (h : heap) rs1 route rs2 f name link d :
  content_of h (rs1 ++ route :: rs2) = Return d →
  h !! view route = Some (ObjFunction f) →
  __name__ f = Some name →
  view_excluded h (view route) = false →
  (get_link route h).1 = Return link →
  (∀ route' f', route' ∈ rs2 →
     h !! view route' = Some (ObjFunction f') →
     view_excluded h (view route') = false → __name__ f' ≠ Some name) →
  d !! name = Some link.
Proof.
  unfold content_of. intros Hd Hf Hfname Hex Hlink Hlater.
  destruct (collect _ _ _) as [pairs [e|]] eqn:Hc; [done|].
  injection Hd as <-.
  destruct (collect_normal (entry_of h) (rs1 ++ route :: rs2) [])
    as [Hpairs _]; [by rewrite Hc|].
  rewrite Hc in Hpairs. simpl in Hpairs. subst pairs.
  rewrite omap_app. simpl.
  rewrite (entry_of_included h route f name link) by done. simpl.
  apply dict_lookup_last.
  intros ([name' link'] & Hname & (route' & Hroute' & Hentry)%list_elem_of_omap)
    %list_elem_of_fmap.
  simpl in Hname. subst name'.
  apply entry_of_contribution in Hentry as (Hex' & f' & Hf' & Hname & _).
  by apply (Hlater route' f').
Qed.

(** Every entry comes from an included route. *)
Lemma content_of_entry (h : heap) rs d key link :
  content_of h rs = Return d → d !! key = Some link →
  ∃ route f, route ∈ rs ∧ h !! view route = Some (ObjFunction f) ∧
             view_excluded h (view route) = false ∧ __name__ f = Some key ∧
             (get_link route h).1 = Return link.
Proof.
  unfold content_of. intros Hd Hkey.
  destruct (collect _ _ _) as [pairs [e|]] eqn:Hc; [done|].
  injection Hd as <-.
  destruct (collect_normal (entry_of h) rs []) as [Hpairs _]; [by rewrite Hc|].
  rewrite Hc in Hpairs. simpl in Hpairs. subst pairs.
  apply dict_lookup_elem, list_elem_of_omap in Hkey as (route & Hroute & Hentry).
  apply entry_of_contribution in Hentry as (Hex & f & Hf & Hname & Hlink).
  by exists route, f.
Qed.

(** Excluded routes contribute nothing. *)
Lemma collect_entry_filter (h : heap) rs acc :
  collect (entry_of h)
          (filter (λ route, view_excluded h (view route) = false) rs) acc
  = collect (entry_of h) rs acc.
Proof.
  revert acc. induction rs as [|route rs IH]; intros acc; [done|].
  rewrite filter_cons. case_decide as Hex; simpl.
  - destruct (entry_of h route) as [[b|]|e]; by rewrite ?IH.
  - apply not_false_is_true in Hex. by rewrite entry_of_excluded, IH.
Qed.

(** The url, the action and the fields of a returned link. *)
Lemma get_link_shape route (h h' : heap) link :
  get_link route h = (Return link, h') →
  link_url link = path route ∧ link_action link = method route ∧
  ∃ f, h !! view route = Some (ObjFunction f) ∧
       link_fields link =
         omap (λ param,
                 match location_of (path route) (method route) param with
                 | Return (Some location, required) =>
                     Some (mkField (param_name param) location required
                                   (Some coreschema.String))
                 | _ => None
                 end) (parameters f).
Proof.
  intros (f & Hf & _ & ->)%get_link_returns. simpl.
  split; [done|]. split; [done|]. exists f. split; [done|].
  apply list_omap_ext, Forall_Forall2_diag, Forall_forall.
  intros param _. unfold field_of.
  by destruct (location_of _ _ _) as [[[location|] required]|e].
Qed.

(** C4, as the code has it.  When, for every route whose view is not
    excluded, the view has a [__name__] and [get_link] returns,
    [get_schema_content] returns a dictionary that maps the [__name__] of
    the view of each such route to the link of that route, provided no later
    such route has a view of the same name; and a link returned by
    [get_link] has the route's path as url, its method as action, and one
    field for each parameter that is given a location, in parameter
    order. *)
Theorem get_schema_content_links (h : heap) routes rs :
  h !! routes = Some (ObjRoutes rs) →
  (∀ route, route ∈ rs → view_excluded h (view route) = false →
     (∃ f name, h !! view route = Some (ObjFunction f) ∧
                __name__ f = Some name) ∧
     ∃ link h1, get_link route h = (Return link, h1)) →
  ∃ content h' d,
    get_schema_content routes h = (Return content, h') ∧
    h' !! content = Some (ObjContent d) ∧
    (∀ rs1 route rs2 f name,
       rs = rs1 ++ route :: rs2 →
       h !! view route = Some (ObjFunction f) →
       __name__ f = Some name →
       view_excluded h (view route) = false →
       (∀ route' f', route' ∈ rs2 →
          h !! view route' = Some (ObjFunction f') →
          view_excluded h (view route') = false →
          __name__ f' ≠ Some name) →
       ∃ link h1, get_link route h = (Return link, h1) ∧
                  d !! name = Some link) ∧
    (∀ route link h1, get_link route h = (Return link, h1) →
       link_url link = path route ∧ link_action link = method route ∧
       ∃ f, h !! view route = Some (ObjFunction f) ∧
            link_fields link =
              omap (λ param,
                      match location_of (path route) (method route) param with
                      | Return (Some location, required) =>
                          Some (mkField (param_name param) location required
                                        (Some coreschema.String))
                      | _ => None
                      end) (parameters f)).
Proof.
  intros Hrs Hlinks.
  pose proof (returned_content_run routes rs h Hrs) as Hret.
  destruct (get_schema_content_run routes rs h Hrs) as (h' & Hrun & Hc & _ & _).
  assert ((collect (entry_of h) rs []).2 = None) as Hnormal.
  { apply collect_total. intros route Hroute. unfold entry_of.
    destruct (view_excluded h (view route)) eqn:Hex; [by eexists|].
    destruct (Hlinks route Hroute Hex)
      as [(f & name & Hf & Hname) (link & h1 & Hlink)].
    pose proof (get_link_result route h) as Hres. rewrite Hlink in Hres.
    simpl in Hres.
    rewrite (proj2 (name_at_Some h (view route) name)) by by exists f.
    rewrite <- Hres. by eexists. }
  rewrite Hnormal in Hrun.
  eexists _, h', _. split; [exact Hrun|]. split; [exact Hc|]. split.
  - intros rs1 route rs2 f name -> Hf Hname Hex Hlater.
    destruct (Hlinks route) as [_ (link & h1 & Hlink)];
      [apply elem_of_app; right; by left|done|].
    exists link, h1. split; [done|].
    apply (content_of_last h rs1 route rs2 f name link); [|done..| |done].
    + unfold content_of.
      destruct (collect _ _ _) as [pairs [e|]]; simpl in *; done.
    + by rewrite Hlink.
  - intros route link h1. apply get_link_shape.
Qed.

Lemma returned_content_Return routes (h h' : heap) content d :
  get_schema_content routes h = (Return content, h') →
  h' !! content = Some (ObjContent d) →
  returned_content (get_schema_content routes h) = Return d.
Proof. intros Hrun Hc. unfold returned_content. rewrite Hrun. simpl. by rewrite Hc. Qed.

(** The decorated endpoints are excluded views. *)
Lemma module_loaded_excluded (h : heap) v :
  module_loaded h → v ∈ [serve_schema; serve_schema_js; serve_docs] →
  view_excluded h v = true.
Proof.
  intros (H1 & H2 & H3) Hv. unfold view_excluded, function_at.
  repeat (apply elem_of_cons in Hv as [->|Hv]); [| | |by apply elem_of_nil in Hv].
  - by rewrite H1.
  - by rewrite H2.
  - by rewrite H3.
Qed.

(** Rebinding the route list leaves the entries of the routes as they are. *)
Lemma content_of_rebind (h : heap) routes rs rs' l :
  h !! routes = Some (ObjRoutes rs) →
  content_of (<[routes := ObjRoutes rs']> h) l = content_of h l.
Proof.
  intros Hrs. unfold content_of.
  rewrite (collect_ext (entry_of (<[routes := ObjRoutes rs']> h)) (entry_of h));
    [done|].
  intros route _. apply entry_of_ext, function_at_insert; [|done].
  unfold function_at. by rewrite Hrs.
Qed.

(** C9, as the code has it.  A route whose view is excluded contributes no
    entry: every entry of the returned dictionary is keyed by the [__name__]
    of the view of a route that is not excluded, and holds the link of that
    route; removing the excluded routes from the list does not change the
    dictionary; [serve_schema], [serve_schema_js] and [serve_docs] are
    excluded, so no entry describes a route that serves them; and under a
    name shared by several routes that are not excluded, the link of the last
    one is kept. *)
Theorem get_schema_content_excluded (h h' : heap) routes rs content d :
  h !! routes = Some (ObjRoutes rs) →
  get_schema_content routes h = (Return content, h') →
  h' !! content = Some (ObjContent d) →
  (∀ key link, d !! key = Some link →
     ∃ route f,
       route ∈ rs ∧ h !! view route = Some (ObjFunction f) ∧
       view_excluded h (view route) = false ∧ __name__ f = Some key ∧
       (get_link route h).1 = Return link ∧
       (module_loaded h →
          view route ∉ [serve_schema; serve_schema_js; serve_docs])) ∧
  returned_content
    (get_schema_content routes
       (<[routes :=
            ObjRoutes (filter (λ route, view_excluded h (view route) = false) rs)]>
          h))
  = Return d ∧
  (∀ rs1 route rs2 f name link,
     rs = rs1 ++ route :: rs2 →
     h !! view route = Some (ObjFunction f) →
     __name__ f = Some name →
     view_excluded h (view route) = false →
     (get_link route h).1 = Return link →
     (∀ route' f', route' ∈ rs2 →
        h !! view route' = Some (ObjFunction f') →
        view_excluded h (view route') = false →
        __name__ f' ≠ Some name) →
     d !! name = Some link).
Proof.
  intros Hrs Hrun Hc.
  pose proof (returned_content_Return _ _ _ _ _ Hrun Hc) as Hd.
  rewrite (returned_content_run routes rs h Hrs) in Hd.
  split; [|split].
  - intros key link Hkey.
    destruct (content_of_entry h rs d key link Hd Hkey)
      as (route & f & Hroute & Hf & Hex & Hname & Hlink).
    exists route, f. repeat split; try done.
    intros Hloaded Hv.
    rewrite (module_loaded_excluded h _ Hloaded Hv) in Hex. done.
  - rewrite (returned_content_run routes _ _ (lookup_insert_eq _ _ _)).
    rewrite (content_of_rebind h routes rs) by done.
    unfold content_of in *. by rewrite collect_entry_filter.
  - intros rs1 route rs2 f name link -> Hf Hname Hex Hlink Hlater.
    by apply (content_of_last h rs1 route rs2 f name link).
Qed.

(** ** Determinism and frame *)

(** C6. Schema generation depends only on the routes given: on two heaps
    that hold the same route list and the same function objects for the views
    of its routes, [get_schema_content] returns equal dictionaries and
    [get_link] returns equal links for each route, hence the same
    (name, location, required) fields; and a second invocation, on the heap
    the first one leaves, returns the same as the first. *)
Theorem schema_generation_deterministic (h1 h2 : heap) routes rs :
  h1 !! routes = Some (ObjRoutes rs) →
  h2 !! routes = Some (ObjRoutes rs) →
  (∀ route, route ∈ rs →
     function_at h1 (view route) = function_at h2 (view route)) →
  returned_content (get_schema_content routes h1)
    = returned_content (get_schema_content routes h2) ∧
  (∀ route, route ∈ rs → (get_link route h1).1 = (get_link route h2).1) ∧
  returned_content (get_schema_content routes (get_schema_content routes h1).2)
    = returned_content (get_schema_content routes h1) ∧
  (∀ route, (get_link route (get_link route h1).2).1 = (get_link route h1).1).
Proof.
  intros Hrs1 Hrs2 Hfn. split; [|split; [|split]].
  - rewrite (returned_content_run routes rs h1), (returned_content_run routes rs h2)
      by done.
    unfold content_of.
    rewrite (collect_ext (entry_of h1) (entry_of h2)); [done|].
    intros route Hroute. by apply entry_of_ext, Hfn.
  - intros route Hroute. by rewrite !get_link_result, Hfn.
  - destruct (get_schema_content_run routes rs h1 Hrs1)
      as (h' & Hrun & _ & Hfn' & Hsub).
    rewrite Hrun. cbn [snd].
    assert (h' !! routes = Some (ObjRoutes rs)) as Hrs'
      by exact (lookup_weaken _ _ _ _ Hrs1 Hsub).
    rewrite <- Hrun.
    rewrite (returned_content_run routes rs h'), (returned_content_run routes rs h1)
      by done.
    unfold content_of.
    rewrite (collect_ext (entry_of h') (entry_of h1)); [done|].
    intros route _. apply entry_of_ext, Hfn'.
  - intros route. rewrite !get_link_result.
    by destruct (get_link_heap route h1) as [_ ->].
Qed.

End get_schema_content_properties.

Section frame_and_url.
Context `{Imports} `{Globals}.

Lemma get_schema_url_loop_run rs base_url (h : heap) :
  ∃ url,
    get_schema_url_loop rs base_url h = (Return url, h) ∧
    (url = None ↔ ∀ route, route ∈ rs → view route ≠ serve_schema) ∧
    (∀ rs1 route rs2,
       rs = rs1 ++ route :: rs2 →
       (∀ route', route' ∈ rs1 → view route' ≠ serve_schema) →
       view route = serve_schema →
       url = Some (urljoin base_url (path route))).
Proof.
  induction rs as [|r rs (url & Hrun & Hnone & Hfirst)]; simpl.
  - exists None. split; [done|]. split.
    + split; [|done]. by intros _ route ?%elem_of_nil.
    + intros [|] ? ? [=].
  - case_bool_decide as Hview.
    + exists (Some (urljoin base_url (path r))). split; [done|]. split.
      * split; [done|]. intros Hall. destruct (Hall r); [by left|done].
      * intros [|r1 rs1] route rs2 [= -> ->] Hbefore Hroute; [done|].
        destruct (Hbefore r1); [by left|done].
    + exists url. split; [done|]. split.
      * rewrite Hnone. split.
        -- intros Hall route [->|Hroute]%elem_of_cons; [done|by apply Hall].
        -- intros Hall route Hroute. apply Hall. by right.
      * intros [|r1 rs1] route rs2 [= -> ->] Hbefore Hroute; [done|].
        apply (Hfirst rs1 route rs2); [done| |done].
        intros route' Hroute'. apply Hbefore. by right.
Qed.

(** C8. On a route list, [get_schema_url] returns [None] exactly when no
    route has [serve_schema] as its view, and otherwise
    [urljoin(base_url, path)] for the first route, in list order, that has;
    the heap is left as it was. *)
Theorem get_schema_url_first (h : heap) routes rs base_url :
  h !! routes = Some (ObjRoutes rs) →
  ∃ url,
    get_schema_url routes base_url h = (Return url, h) ∧
    (url = None ↔ ∀ route, route ∈ rs → view route ≠ serve_schema) ∧
    (∀ rs1 route rs2,
       rs = rs1 ++ route :: rs2 →
       (∀ route', route' ∈ rs1 → view route' ≠ serve_schema) →
       view route = serve_schema →
       url = Some (urljoin base_url (path route))).
Proof.
  intros Hrs. unfold get_schema_url. rewrite bind_run.
  unfold iter_routes. rewrite Hrs. apply get_schema_url_loop_run.
Qed.

Lemma get_schema_url_heap routes base_url (h : heap) :
  (get_schema_url routes base_url h).2 = h.
Proof.
  unfold get_schema_url. rewrite bind_run. unfold iter_routes.
  destruct (h !! routes) as [[|rs| |]|]; try done.
  by destruct (get_schema_url_loop_run rs base_url h) as (url & -> & _).
Qed.

(** C7. The three functions leave every object of the heap they are given
    as it was, in particular the route list and the function objects of the
    views: [get_schema_url] returns the heap unchanged, and
    [get_schema_content] and [get_link] only add the objects they
    allocate. *)
Theorem functions_preserve_heap (h : heap) routes base_url route :
  (get_schema_url routes base_url h).2 = h ∧
  h ⊆ (get_schema_content routes h).2 ∧
  h ⊆ (get_link route h).2.
Proof.
  split; [apply get_schema_url_heap|].
  split; [apply get_schema_content_heap|].
  apply get_link_heap.
Qed.

(** ** Properties of [render_form] *)

Lemma map_pair_keys {A V} (key : A → string) (val : A → V) (l : list A) :
  (map (λ x, (key x, val x)) l).*1 = key <$> l.
Proof.
  induction l as [|x l IH]; [done|]. cbn [map]. by rewrite !fmap_cons, IH.
Qed.

(** C10. [render_form] renders the [coreschema.Object] whose properties are
    drawn from the fields of the link: one property per field name, holding
    the schema of the last field of that name, or the string schema when
    that field has none; its list of required properties is empty, whatever
    the [required] flags of the fields are. *)
Theorem render_form_properties (link : Link) :
  render_form link = render_to_form (render_form_schema link) ∧
  ∃ properties,
    render_form_schema link = coreschema.Object properties [] ∧
    (∀ name, properties !! name = None ↔
               name ∉ field_name <$> link_fields link) ∧
    (∀ name s, properties !! name = Some s →
       ∃ field, field ∈ link_fields link ∧ field_name field = name ∧
                s = default coreschema.String (field_schema field)) ∧
    (∀ fs1 field fs2,
       link_fields link = fs1 ++ field :: fs2 →
       field_name field ∉ field_name <$> fs2 →
       properties !! field_name field
         = Some (default coreschema.String (field_schema field))) ∧
    (∀ flag,
       render_form_schema
         (mkLink (link_url link) (link_action link)
            (map (λ field, mkField (field_name field) (field_location field)
                                   (flag field) (field_schema field))
                 (link_fields link)))
       = render_form_schema link).
Proof.
  split; [done|]. unfold render_form_schema. eexists. split; [done|].
  pose (val := λ field : Field, default coreschema.String (field_schema field)).
  split; [|split; [|split]].
  - intros name. by rewrite dict_lookup_None, (map_pair_keys field_name val).
  - intros name s Hs%dict_lookup_elem.
    apply list_elem_of_In, in_map_iff in Hs as (field & [= <- <-] & Hfield).
    exists field. by rewrite list_elem_of_In.
  - intros fs1 field fs2 -> Hlast. rewrite map_app. simpl.
    apply dict_lookup_last. by rewrite (map_pair_keys field_name val).
  - intros flag. simpl. by rewrite map_map.
Qed.

End frame_and_url.

(** ** The properties on the example application *)

Section examples.
Import Example.

(** The parameter [note : str] of [create_user], routed with POST, is a
    form field. *)
Lemma get_link_typed_parameter_witness :
  filter (λ field, field_name field = "note") (link_fields create_user_link)
  = [mkField "note" "form" false (Some coreschema.String)].
Proof.
  unshelve epose proof
    (get_link_typed_parameter app_heap (get_link create_user_route app_heap).2
       create_user_route create_user
       (mkParameter "note" (Some (PyClass str))) create_user_link
       _ _ _ _ _ _) as W.
  - reflexivity.
  - by_computation.
  - by_computation.
  - by_computation.
  - left. reflexivity.
  - vm_compute. reflexivity.
  - exact W.
Defined.

(** The parameter [user_id] of [get_user] is a path field. *)
Lemma get_link_path_parameter_witness :
  filter (λ field, field_name field = "user_id") (link_fields get_user_link)
  = [mkField "user_id" "path" true (Some coreschema.String)].
Proof.
  unshelve epose proof
    (get_link_path_parameter app_heap (get_link get_user_route app_heap).2
       get_user_route get_user
       (mkParameter "user_id" (Some (PyClass int))) get_user_link
       _ _ _ _ _) as W.
  - reflexivity.
  - by_computation.
  - by_computation.
  - by_computation.
  - vm_compute. reflexivity.
  - exact W.
Defined.

(** The parameter [verbose] of [get_user], without annotation, is a query
    field, and annotating it with [str] changes nothing. *)
Lemma get_link_missing_annotation_witness :
  filter (λ field, field_name field = "verbose") (link_fields get_user_link)
    = [mkField "verbose" "query" false (Some coreschema.String)] ∧
  (get_link get_user_route
     (<[4%positive :=
          ObjFunction
            (mkFunction (Some "get_user")
               [mkParameter "user_id" (Some (PyClass int));
                mkParameter "verbose" (Some (PyClass str));
                mkParameter "request" (Some (PyClass Request))] ∅)]>
        app_heap)).1
    = Return get_user_link.
Proof.
  unshelve epose proof
    (get_link_missing_annotation app_heap
       (get_link get_user_route app_heap).2 get_user_route (Some "get_user")
       [mkParameter "user_id" (Some (PyClass int))] "verbose"
       [mkParameter "request" (Some (PyClass Request))] ∅ get_user_link
       _ _ _) as W.
  - reflexivity.
  - by_computation.
  - vm_compute. reflexivity.
  - exact (conj (proj1 W) (proj1 (proj2 W))).
Defined.

(** [get_link] returns on the route of [search], one of whose parameters is
    annotated [list[int]] and the other not at all. *)
Lemma get_link_returns_on_classes_witness :
  ∃ link h', get_link search_route more_heap = (Return link, h').
Proof.
  apply (get_link_returns_on_classes more_heap search_route search).
  - reflexivity.
  - intros param Hparam.
    repeat (apply elem_of_cons in Hparam as [->|Hparam]).
    + right. reflexivity.
    + right. reflexivity.
    + by apply elem_of_nil in Hparam.
Defined.

(** C5 as stated fails: on a parameter annotated with an object that has no
    [__bases__], here the string ['Page'], the subclass test of line 77
    raises [TypeError], and so does [get_link]. *)
Lemma get_link_raises_counterexample :
  app_heap !! view list_users_route = Some (ObjFunction list_users) ∧
  parameters list_users = [mkParameter "page" (Some (PyStr "Page"))] ∧
  issubclass_tuple (PyStr "Page") schema_types = Raise TypeError ∧
  (get_link list_users_route app_heap).1 = Raise TypeError ∧
  ¬ ∃ link h', get_link list_users_route app_heap = (Return link, h').
Proof.
  repeat split; try reflexivity.
  intros (link & h' & Hrun).
  assert ((get_link list_users_route app_heap).1 = Return link) as Hlink
    by (by rewrite Hrun).
  vm_compute in Hlink. discriminate.
Qed.

(** The schema content of the example application. *)
Lemma get_schema_content_links_witness :
  ∃ content h' d,
    get_schema_content routes app_heap = (Return content, h') ∧
    h' !! content = Some (ObjContent d) ∧
    d !! "get_user" = Some get_user_link ∧
    d !! "create_user" = Some create_user_link.
Proof.
  unshelve epose proof
    (get_schema_content_links app_heap routes app_routes _ _)
    as (content & h' & d & Hrun & Hd & Hlast & _).
  - reflexivity.
  - intros route Hroute Hex.
    repeat (apply elem_of_cons in Hroute as [->|Hroute]);
      try (by apply elem_of_nil in Hroute);
      try (vm_compute in Hex; discriminate);
      (split; [eexists _, _; split; reflexivity
              |eexists _, _; vm_compute; reflexivity]).
  - exists content, h', d. split; [done|]. split; [done|]. split.
    + destruct (Hlast [] get_user_route
                  [create_user_route; schema_route; docs_route] get_user
                  "get_user")
        as (link & h1 & Hlink & Hkey); [reflexivity..| |].
      * intros route' f' Hroute' Hf' Hex.
        repeat (apply elem_of_cons in Hroute' as [->|Hroute']);
          try (by apply elem_of_nil in Hroute');
          try (vm_compute in Hex; discriminate).
        vm_compute in Hf'. by injection Hf' as <-.
      * assert ((get_link get_user_route app_heap).1 = Return link) as Heq
          by (by rewrite Hlink).
        vm_compute in Heq. injection Heq as <-. exact Hkey.
    + destruct (Hlast [get_user_route] create_user_route
                  [schema_route; docs_route] create_user "create_user")
        as (link & h1 & Hlink & Hkey); [reflexivity..| |].
      * intros route' f' Hroute' Hf' Hex.
        repeat (apply elem_of_cons in Hroute' as [->|Hroute']);
          try (by apply elem_of_nil in Hroute');
          vm_compute in Hex; discriminate.
      * assert ((get_link create_user_route app_heap).1 = Return link) as Heq
          by (by rewrite Hlink).
        vm_compute in Heq. injection Heq as <-. exact Hkey.
Defined.

(** C4 as stated fails: the view [get_user] is mounted under two paths; the
    dictionary maps its name to the link of the second route, not to the
    link [get_link] produces for the first. *)
Lemma get_schema_content_links_counterexample :
  app_heap !! mounted_twice = Some (ObjRoutes [get_user_route; second_mount]) ∧
  view_excluded app_heap (view get_user_route) = false ∧
  function_at app_heap (view get_user_route) = Some get_user ∧
  __name__ get_user = Some "get_user" ∧
  (get_link get_user_route app_heap).1 = Return get_user_link ∧
  ∃ d, returned_content (get_schema_content mounted_twice app_heap) = Return d ∧
       d !! "get_user" ≠ Some get_user_link.
Proof.
  repeat split; try reflexivity.
  eexists. split; [vm_compute; reflexivity|].
  vm_compute. intros [=].
Qed.

(** Without the routes of the two excluded endpoints, the schema content of
    the example application is the same. *)
Lemma get_schema_content_excluded_witness :
  returned_content
    (get_schema_content routes
       (<[routes := ObjRoutes [get_user_route; create_user_route]]> app_heap))
  = Return app_content.
Proof.
  unshelve epose proof
    (get_schema_content_excluded app_heap
       (get_schema_content routes app_heap).2 routes app_routes
       (fresh (dom app_heap)) app_content _ _ _) as W.
  - reflexivity.
  - vm_compute. reflexivity.
  - vm_compute. reflexivity.
  - exact (proj1 (proj2 W)).
Defined.

(** C9 as stated fails: the hidden view [admin_ping] and the exposed view
    [ping] have the same [__name__]; the key ["ping"] of the returned
    dictionary is the name of a view marked [exclude_from_schema]. *)
Lemma get_schema_content_excluded_counterexample :
  app_heap !! ping_routes =
    Some (ObjRoutes [admin_ping_route; ping_route]) ∧
  function_at app_heap (view admin_ping_route) = Some admin_ping ∧
  view_excluded app_heap (view admin_ping_route) = true ∧
  __name__ admin_ping = Some "ping" ∧
  ∃ d, returned_content (get_schema_content ping_routes app_heap) = Return d ∧
       is_Some (d !! "ping").
Proof.
  repeat split; try reflexivity.
  eexists. split; [vm_compute; reflexivity|].
  vm_compute. by eexists.
Qed.

(** The schema content of the example application is the same after a call
    of [get_link] has extended the heap. *)
Lemma schema_generation_deterministic_witness :
  returned_content (get_schema_content routes app_heap)
  = returned_content
      (get_schema_content routes (get_link create_user_route app_heap).2).
Proof.
  unshelve epose proof
    (schema_generation_deterministic app_heap
       (get_link create_user_route app_heap).2 routes app_routes _ _ _) as W.
  - reflexivity.
  - vm_compute. reflexivity.
  - intros route Hroute.
    repeat (apply elem_of_cons in Hroute as [->|Hroute]);
      try (by apply elem_of_nil in Hroute); vm_compute; reflexivity.
  - exact (proj1 W).
Defined.

(** The schema url of the example application. *)
Lemma get_schema_url_first_witness :
  ∃ url,
    get_schema_url routes (Some "http://example.org") app_heap
      = (Return url, app_heap) ∧
    url = Some "http://example.org/schema".
Proof.
  unshelve epose proof
    (get_schema_url_first app_heap routes app_routes
       (Some "http://example.org") _) as (url & Hrun & _ & Hfirst).
  - reflexivity.
  - exists url. split; [exact Hrun|].
    apply (Hfirst [get_user_route; create_user_route]
             schema_route [docs_route]); [reflexivity| |reflexivity].
    intros route' Hroute'.
    repeat (apply elem_of_cons in Hroute' as [->|Hroute']);
      try (by apply elem_of_nil in Hroute'); vm_compute; discriminate.
Defined.

End examples.

(** ** Further properties of [get_link] *)

Section get_link_fields.
Context `{Imports} `{Globals}.

(** The ways a parameter is given a location. *)
Lemma location_of_cases path method param location required :
  location_of path method param = Return (Some location, required) →
  (param_name param ∈ variable_names path ∧
     location = "path" ∧ required = true) ∨
  ((param_name param ∉ variable_names path) ∧ is_typed param = Return true ∧
     ((method ∈ ["POST"; "PUT"; "PATCH"] ∧
         issubclass (annotated_type param) schema_Object = Return true ∧
         location = "body" ∧ required = true) ∨
      ((method ∈ ["POST"; "PUT"; "PATCH"] ∧
          issubclass (annotated_type param) schema_Object = Return false ∧
          location = "form" ∧ required = false) ∨
       ((method ∉ ["POST"; "PUT"; "PATCH"]) ∧
          location = "query" ∧ required = false)))).
Proof.
  unfold location_of.
  case_bool_decide as Hvar; [intros [= <- <-]; by left|].
  destruct (is_typed param) as [[]|e] eqn:Hty; [|done..].
  case_bool_decide as Hmethod.
  - destruct (issubclass _ _) as [[]|e] eqn:Hobj; [| |done];
      intros [= <- <-]; right; repeat split; try done; eauto 10.
  - intros [= <- <-]. right. repeat split; try done. eauto 10.
Qed.

Lemma field_of_contribution path method param field :
  contribution (field_of path method param) = Some field →
  ∃ location required,
    location_of path method param = Return (Some location, required) ∧
    field = mkField (param_name param) location required
                    (Some coreschema.String).
Proof.
  unfold field_of.
  destruct (location_of path method param) as [[[location|] required]|e];
    simpl; [|done..].
  intros [= <-]. by eexists _, _.
Qed.

(** The fields of a returned link, one by one. *)
Lemma get_link_field route (h h' : heap) link field :
  get_link route h = (Return link, h') → field ∈ link_fields link →
  ∃ f param location required,
    h !! view route = Some (ObjFunction f) ∧ param ∈ parameters f ∧
    location_of (path route) (method route) param
      = Return (Some location, required) ∧
    field = mkField (param_name param) location required
                    (Some coreschema.String).
Proof.
  intros (f & Hf & _ & ->)%get_link_returns. simpl.
  intros (param & Hparam & Hfield)%list_elem_of_omap.
  apply field_of_contribution in Hfield as (location & required & Hloc & ->).
  by exists f, param, location, required.
Qed.

(** X1. Every field of a link [get_link] returns describes a parameter of
    the view, has one of the four locations, is required exactly when its
    location is ['path'] or ['body'], and carries the string schema. *)
Theorem get_link_field_invariant route (h h' : heap) link field :
  get_link route h = (Return link, h') →
  field ∈ link_fields link →
  field_location field ∈ ["path"; "query"; "form"; "body"] ∧
  (field_required field = true ↔ field_location field ∈ ["path"; "body"]) ∧
  field_schema field = Some coreschema.String ∧
  ∃ f param, h !! view route = Some (ObjFunction f) ∧
             param ∈ parameters f ∧ field_name field = param_name param.
Proof.
  intros Hrun Hfield.
  destruct (get_link_field _ _ _ _ _ Hrun Hfield)
    as (f & param & location & required & Hf & Hparam & Hloc & ->).
  simpl.
  enough (location ∈ ["path"; "query"; "form"; "body"] ∧
          (required = true ↔ location ∈ ["path"; "body"])) as [? ?]
    by (split; [done|split; [done|split; [done|by exists f, param]]]).
  apply location_of_cases in Hloc
    as [(_ & -> & ->)
       |(_ & _ & [(_ & _ & -> & ->)|[(_ & _ & -> & ->)|(_ & -> & ->)]])];
    by_computation.
Qed.

(** X2. The method decides which locations occur besides ['path']: a link
    for POST, PUT or PATCH has no ['query'] field, and a link for any other
    method has neither a ['form'] nor a ['body'] field. *)
Theorem get_link_method_locations route (h h' : heap) link field :
  get_link route h = (Return link, h') →
  field ∈ link_fields link →
  if bool_decide (method route ∈ ["POST"; "PUT"; "PATCH"])
  then field_location field ∈ ["path"; "form"; "body"]
  else field_location field ∈ ["path"; "query"].
Proof.
  intros Hrun Hfield.
  destruct (get_link_field _ _ _ _ _ Hrun Hfield)
    as (f & param & location & required & Hf & Hparam & Hloc & ->).
  simpl.
  apply location_of_cases in Hloc
    as [(_ & -> & _)
       |(_ & _ & [(Hm & _ & -> & _)|[(Hm & _ & -> & _)|(Hm & -> & _)]])].
  - case_bool_decide; by_computation.
  - rewrite bool_decide_eq_true_2 by done. by_computation.
  - rewrite bool_decide_eq_true_2 by done. by_computation.
  - rewrite bool_decide_eq_false_2 by done. by_computation.
Qed.

End get_link_fields.

Section get_link_parameters.
Context `{Imports} `{Globals}.

(** X3. A parameter that is not a variable of the URI template and whose
    annotated type is neither a primitive type nor a subclass of the schema
    types, such as an injected component, is left out of the link: no field
    has its name. *)
Theorem get_link_omits_parameter (h h' : heap) route f param link :
  h !! view route = Some (ObjFunction f) →
  NoDup (param_name <$> parameters f) →
  param ∈ parameters f →
  param_name param ∉ variable_names (path route) →
  in_tuple (annotated_type param) primitive_types = false →
  issubclass_tuple (annotated_type param) schema_types = Return false →
  get_link route h = (Return link, h') →
  ∀ field, field ∈ link_fields link → field_name field ≠ param_name param.
Proof.
  intros Hf Hnd Hparam Hvar Hprim Hschema Hrun field Hfield Hname.
  destruct (get_link_field _ _ _ _ _ Hrun Hfield)
    as (f' & param' & location & required & Hf' & Hparam' & Hloc & ->).
  rewrite Hf in Hf'. injection Hf' as <-. simpl in Hname.
  assert (param' = param) as ->.
  { apply list_elem_of_lookup in Hparam as [i Hi].
    apply list_elem_of_lookup in Hparam' as [j Hj].
    assert (i = j) as ->; [|congruence].
    apply (NoDup_lookup _ i j (param_name param) Hnd);
      rewrite list_lookup_fmap; [by rewrite Hi|].
    rewrite Hj. simpl. by rewrite Hname. }
  unfold location_of, is_typed in Hloc.
  by rewrite bool_decide_eq_false_2, Hprim, Hschema in Hloc.
Qed.

Lemma omap_sublist {A B} (F : A → option B) (key : A → string)
    (key' : B → string) (xs : list A) :
  (∀ x b, F x = Some b → key' b = key x) →
  key' <$> omap F xs `sublist_of` key <$> xs.
Proof.
  intros Hkey. induction xs as [|x xs IH]; [done|]. simpl.
  destruct (F x) as [b|] eqn:Hb.
  - rewrite fmap_cons, (Hkey _ _ Hb). by apply sublist_skip.
  - by apply sublist_cons.
Qed.

(** X4. The fields of a returned link follow the parameters of the view:
    their names are a subsequence of the parameter names, in the same
    order, so a link has at most one field per parameter and, parameter
    names being distinct, no two fields of the same name. *)
Theorem get_link_fields_follow_parameters (h h' : heap) route f link :
  h !! view route = Some (ObjFunction f) →
  get_link route h = (Return link, h') →
  field_name <$> link_fields link `sublist_of` param_name <$> parameters f ∧
  (length (link_fields link) ≤ length (parameters f))%nat ∧
  (NoDup (param_name <$> parameters f) →
   NoDup (field_name <$> link_fields link)).
Proof.
  intros Hf (f' & Hf' & _ & ->)%get_link_returns.
  rewrite Hf in Hf'. injection Hf' as <-. simpl.
  pose proof (omap_sublist
                (λ param, contribution
                            (field_of (path route) (method route) param))
                param_name field_name (parameters f)
                (λ param field, field_of_name _ _ param field)) as Hsub.
  split; [done|]. split.
  - apply sublist_length in Hsub. by rewrite !length_fmap in Hsub.
  - intros Hnd. by eapply sublist_NoDup.
Qed.

(** X5. What [get_link] returns depends on the route's path and method and
    on the parameters of the view only: neither the [__name__] of the view
    nor its attributes, [exclude_from_schema] included, are looked at. *)
Theorem get_link_reads_parameters_only (h1 h2 : heap) route1 route2 f1 f2 :
  h1 !! view route1 = Some (ObjFunction f1) →
  h2 !! view route2 = Some (ObjFunction f2) →
  path route1 = path route2 →
  method route1 = method route2 →
  parameters f1 = parameters f2 →
  (get_link route1 h1).1 = (get_link route2 h2).1.
Proof.
  intros Hf1%function_at_Some Hf2%function_at_Some Hpath Hmethod Hparams.
  rewrite !get_link_result, Hf1, Hf2. unfold link_of.
  by rewrite Hpath, Hmethod, Hparams.
Qed.

End get_link_parameters.

(** ** Further properties of [get_schema_content] *)

Section get_schema_content_results.
Context `{Imports} `{Globals}.

Lemma collect_app {A B} (g : A → result (option B)) l1 l2 acc :
  collect g (l1 ++ l2) acc =
    match (collect g l1 acc).2 with
    | None => collect g l2 (collect g l1 acc).1
    | Some e => collect g l1 acc
    end.
Proof.
  revert acc. induction l1 as [|x l1 IH]; intros acc; simpl; [done|].
  by destruct (g x) as [[b|]|e].
Qed.

Lemma dict_app {V} (l1 l2 : list (string * V)) :
  dict (l1 ++ l2) = dict l2 ∪ dict l1.
Proof.
  induction l2 as [|[k v] l2 IH] using rev_ind.
  - rewrite app_nil_r. unfold dict at 2. simpl. by rewrite (left_id_L ∅ (∪)).
  - by rewrite app_assoc, !dict_snoc, IH, insert_union_l.
Qed.

(** A route is processed without exception exactly when its view is
    excluded, or has a [__name__] and [get_link] returns on the route. *)
Lemma entry_of_returns (h : heap) route :
  (∃ o, entry_of h route = Return o) ↔
  (view_excluded h (view route) = false →
   (∃ f name, h !! view route = Some (ObjFunction f) ∧
              __name__ f = Some name) ∧
   ∃ link, (get_link route h).1 = Return link).
Proof.
  unfold entry_of. rewrite get_link_result.
  destruct (view_excluded h (view route)); [split; [done|by eexists]|].
  destruct (name_at h (view route)) as [name|] eqn:Hname.
  - apply name_at_Some in Hname as (f & Hf & Hname).
    destruct (link_of (function_at h (view route)) route) as [link|e].
    + split; [|by eexists]. intros _ _. split; [by exists f, name|by eexists].
    + split; [by intros [o ?]|]. intros [_ [link Hlink]]; done.
  - split; [by intros [o ?]|].
    intros [(f & name & Hf & Hfname) _]; [done|].
    rewrite (proj2 (name_at_Some h (view route) name)) in Hname by by exists f.
    done.
Qed.

(** X6. [get_schema_content] returns a dictionary exactly when every route
    whose view is not excluded has a view with a [__name__] on which
    [get_link] returns: a single handler it cannot name or describe makes
    the whole call raise, while what an excluded view looks like does not
    matter. *)
Theorem get_schema_content_returns_iff (h : heap) routes rs :
  h !! routes = Some (ObjRoutes rs) →
  (∃ d, returned_content (get_schema_content routes h) = Return d) ↔
  (∀ route, route ∈ rs → view_excluded h (view route) = false →
     (∃ f name, h !! view route = Some (ObjFunction f) ∧
                __name__ f = Some name) ∧
     ∃ link, (get_link route h).1 = Return link).
Proof.
  intros Hrs. rewrite (returned_content_run routes rs h Hrs).
  unfold content_of. split.
  - intros [d Hd] route Hroute. apply entry_of_returns.
    destruct (collect _ _ _) as [pairs [e|]] eqn:Hc; [done|].
    destruct (collect_normal (entry_of h) rs []) as [_ Hall]; [by rewrite Hc|].
    by apply Hall.
  - intros Hall.
    pose proof (collect_total (entry_of h) rs []) as Htotal.
    destruct (collect _ _ _) as [pairs [e|]]; [|by eexists].
    enough (Some e = None) by done. apply Htotal.
    intros route Hroute. apply entry_of_returns. by apply Hall.
Qed.

(** X7. The exception [get_schema_content] raises is the one of the first
    route it cannot process: [AttributeError] when the view of that route
    has no [__name__], as the name is read before [get_link] is called, and
    otherwise what [get_link] raises on that route. *)
Theorem get_schema_content_first_failure (h : heap) routes rs1 route rs2 :
  h !! routes = Some (ObjRoutes (rs1 ++ route :: rs2)) →
  (∀ route', route' ∈ rs1 → view_excluded h (view route') = false →
     (∃ f name, h !! view route' = Some (ObjFunction f) ∧
                __name__ f = Some name) ∧
     ∃ link, (get_link route' h).1 = Return link) →
  view_excluded h (view route) = false →
  (name_at h (view route) = None →
   (get_schema_content routes h).1 = Raise AttributeError) ∧
  (∀ f name e, h !! view route = Some (ObjFunction f) →
               __name__ f = Some name →
               (get_link route h).1 = Raise e →
               (get_schema_content routes h).1 = Raise e).
Proof.
  intros Hrs Hbefore Hex.
  destruct (get_schema_content_run routes _ h Hrs) as (h' & -> & _).
  cbn [fst]. rewrite collect_app.
  rewrite (collect_total (entry_of h) rs1 [])
    by (intros route' Hroute'; apply entry_of_returns; by apply Hbefore).
  simpl. unfold entry_of. rewrite Hex. split.
  - by intros ->.
  - intros f name e Hf Hname.
    rewrite (proj2 (name_at_Some h (view route) name)) by by exists f.
    rewrite get_link_result. by intros ->.
Qed.

(** X8. The keys of the returned dictionary are exactly the [__name__]s of
    the views of the routes that are not excluded; the dictionary is empty
    exactly when every route is excluded. *)
Theorem get_schema_content_keys (h : heap) routes rs d :
  h !! routes = Some (ObjRoutes rs) →
  returned_content (get_schema_content routes h) = Return d →
  (∀ key, key ∈ dom d ↔
     ∃ route f, route ∈ rs ∧ h !! view route = Some (ObjFunction f) ∧
                view_excluded h (view route) = false ∧
                __name__ f = Some key) ∧
  (d = ∅ ↔ ∀ route, route ∈ rs → view_excluded h (view route) = true).
Proof.
  intros Hrs Hd. rewrite (returned_content_run routes rs h Hrs) in Hd.
  assert (∃ pairs, collect (entry_of h) rs [] = (pairs, None) ∧ d = dict pairs)
    as (pairs & Hc & ->).
  { unfold content_of in Hd.
    destruct (collect _ _ _) as [pairs [e|]]; [done|].
    injection Hd as <-. by exists pairs. }
  destruct (collect_normal (entry_of h) rs []) as [Hpairs Hall];
    [by rewrite Hc|].
  rewrite Hc in Hpairs. simpl in Hpairs. subst pairs.
  assert (content_of h rs
          = Return (dict (omap (λ x, contribution (entry_of h x)) rs))) as Hd'
    by (unfold content_of; by rewrite Hc).
  assert (∀ route, route ∈ rs → view_excluded h (view route) = false →
            ∃ name link, entry_of h route = Return (Some (name, link)) ∧
                         name_at h (view route) = Some name) as Hentry.
  { intros route Hroute Hex. destruct (Hall route Hroute) as [o Ho].
    unfold entry_of in *. rewrite Hex in *.
    destruct (name_at h (view route)) as [name|]; [|done].
    destruct (link_of _ route) as [link|e]; [|done]. by exists name, link. }
  assert (∀ key, key ∈ dom (dict (omap (λ x, contribution (entry_of h x)) rs)) ↔
     ∃ route f, route ∈ rs ∧ h !! view route = Some (ObjFunction f) ∧
                view_excluded h (view route) = false ∧
                __name__ f = Some key)
    as Hkeys.
  { intros key. split.
    - intros [link Hlink]%elem_of_dom.
      destruct (content_of_entry h rs _ key link Hd' Hlink)
        as (route & f & ? & ? & ? & ? & _).
      by exists route, f.
    - intros (route & f & Hroute & Hf & Hex & Hname).
      destruct (Hentry route Hroute Hex) as (name & link & Ho & Hname').
      apply name_at_Some in Hname' as (f' & Hf' & Hname').
      assert (name = key) as -> by congruence.
      apply elem_of_dom. apply not_eq_None_Some. rewrite dict_lookup_None.
      intros Hkey. apply Hkey.
      apply list_elem_of_fmap. exists (key, link). split; [done|].
      apply list_elem_of_omap. exists route. split; [done|]. by rewrite Ho. }
  split; [done|]. split.
  - intros Hempty route Hroute.
    destruct (view_excluded h (view route)) eqn:Hex; [done|].
    destruct (Hentry route Hroute Hex) as (name & link & _ & Hname).
    apply name_at_Some in Hname as (f & Hf & Hname).
    assert (name ∈ dom (dict (omap (λ x, contribution (entry_of h x)) rs)))
      as Hin by (apply Hkeys; by exists route, f).
    by rewrite Hempty, dom_empty_L in Hin.
  - intros Hex. apply map_eq. intros key. rewrite lookup_empty.
    apply not_elem_of_dom. rewrite Hkeys.
    intros (route & f & Hroute & _ & Hex' & _).
    by rewrite (Hex route Hroute) in Hex'.
Qed.

End get_schema_content_results.

Section composition.
Context `{Imports} `{Globals}.

(** X9. Route lists compose: the dictionary for the concatenation of two
    lists is the dictionary of the second one, completed by the entries of
    the first one whose names the second one does not use. *)
Theorem get_schema_content_app (h : heap) routes1 routes2 routes rs1 rs2 d1 d2 :
  h !! routes1 = Some (ObjRoutes rs1) →
  h !! routes2 = Some (ObjRoutes rs2) →
  h !! routes = Some (ObjRoutes (rs1 ++ rs2)) →
  returned_content (get_schema_content routes1 h) = Return d1 →
  returned_content (get_schema_content routes2 h) = Return d2 →
  returned_content (get_schema_content routes h) = Return (d2 ∪ d1).
Proof.
  intros Hrs1 Hrs2 Hrs.
  rewrite (returned_content_run routes1 rs1 h Hrs1),
    (returned_content_run routes2 rs2 h Hrs2),
    (returned_content_run routes _ h Hrs).
  unfold content_of. rewrite collect_app.
  destruct (collect (entry_of h) rs1 []) as [pairs1 [e|]] eqn:Hc1; [done|].
  intros [= <-]. simpl.
  destruct (collect (entry_of h) rs2 []) as [pairs2 [e|]] eqn:Hc2; [done|].
  intros [= <-].
  destruct (collect_normal (entry_of h) rs2 []) as [Hpairs2 Hall];
    [by rewrite Hc2|].
  rewrite Hc2 in Hpairs2. simpl in Hpairs2.
  pose proof (collect_total (entry_of h) rs2 pairs1 Hall) as Hnormal.
  destruct (collect_normal (entry_of h) rs2 pairs1 Hnormal) as [Hpairs _].
  destruct (collect (entry_of h) rs2 pairs1) as [pairs [e|]]; [done|].
  simpl in Hpairs. by rewrite Hpairs, dict_app, Hpairs2.
Qed.

(** A call that returns was given a list of routes. *)
Lemma get_schema_content_Return routes (h h' : heap) content :
  get_schema_content routes h = (Return content, h') →
  ∃ rs, h !! routes = Some (ObjRoutes rs).
Proof.
  destruct (h !! routes) as [[| rs | |]|] eqn:Hrs; [|by eexists|..];
    unfold get_schema_content; rewrite bind_run; unfold alloc at 1;
    cbv zeta; rewrite bind_run; unfold iter_routes at 1;
    (destruct (decide (fresh (dom h) = routes)) as [<-|Hne];
     [rewrite lookup_insert_eq|rewrite lookup_insert_ne, Hrs by done]); done.
Qed.

(** X10. The dictionary [get_schema_content] returns is a new object: it is
    none of the objects of the heap the call started from, and a later call
    returns another object and leaves the first dictionary as it is. *)
Theorem get_schema_content_fresh routes (h h' : heap) content :
  get_schema_content routes h = (Return content, h') →
  h !! content = None ∧
  ∃ d, h' !! content = Some (ObjContent d) ∧
       ∀ content' h'', get_schema_content routes h' = (Return content', h'') →
                       content' ≠ content ∧ h'' !! content = Some (ObjContent d).
Proof.
  intros Hrun.
  destruct (get_schema_content_Return _ _ _ _ Hrun) as [rs Hrs].
  destruct (get_schema_content_run routes rs h Hrs) as (h1 & Hrun1 & Hc & _ & Hsub).
  rewrite Hrun in Hrun1.
  destruct (collect (entry_of h) rs []) as [pairs [e|]]; [done|].
  injection Hrun1 as -> <-. split; [apply fresh_lookup|].
  eexists. split; [exact Hc|]. intros content' h'' Hrun'.
  assert (h' !! routes = Some (ObjRoutes rs)) as Hrs'
    by exact (lookup_weaken _ _ _ _ Hrs Hsub).
  destruct (get_schema_content_run routes rs h' Hrs')
    as (h2 & Hrun2 & _ & _ & Hsub').
  rewrite Hrun' in Hrun2.
  destruct (collect (entry_of h') rs []) as [pairs' [e|]]; [done|].
  injection Hrun2 as -> <-. split.
  - intros Heq. pose proof (fresh_lookup h') as Hfresh.
    rewrite Heq, Hc in Hfresh. done.
  - exact (lookup_weaken _ _ _ _ Hc Hsub').
Qed.

Lemma get_schema_url_result routes rs base_url (h : heap) :
  h !! routes = Some (ObjRoutes rs) →
  get_schema_url routes base_url h = get_schema_url_loop rs base_url h.
Proof.
  intros Hrs. unfold get_schema_url. rewrite bind_run.
  unfold iter_routes. by rewrite Hrs.
Qed.

Lemma get_schema_url_loop_app rs1 rs2 base_url (h : heap) :
  get_schema_url_loop (rs1 ++ rs2) base_url h =
    match (get_schema_url_loop rs1 base_url h).1 with
    | Return None => get_schema_url_loop rs2 base_url h
    | _ => get_schema_url_loop rs1 base_url h
    end.
Proof.
  induction rs1 as [|route rs1 IH]; simpl; [done|].
  by case_bool_decide.
Qed.

(** X11. Only the first route that serves the schema counts: the url for the
    concatenation of two route lists is the url for the first list when
    there is one, and the url for the second list otherwise. *)
Theorem get_schema_url_app (h : heap) routes1 routes2 routes rs1 rs2 base_url :
  h !! routes1 = Some (ObjRoutes rs1) →
  h !! routes2 = Some (ObjRoutes rs2) →
  h !! routes = Some (ObjRoutes (rs1 ++ rs2)) →
  (get_schema_url routes base_url h).1 =
    match (get_schema_url routes1 base_url h).1 with
    | Return None => (get_schema_url routes2 base_url h).1
    | url => url
    end.
Proof.
  intros Hrs1 Hrs2 Hrs.
  rewrite (get_schema_url_result routes1 rs1), (get_schema_url_result routes2 rs2),
    (get_schema_url_result routes (rs1 ++ rs2)) by done.
  rewrite get_schema_url_loop_app.
  by destruct (get_schema_url_loop rs1 base_url h).1 as [[url|]|e] eqn:Hurl.
Qed.

End composition.

(** ** [APISchema.build], [get_fields] and [render_form] on returned links *)

Section documents.
Context `{Imports} `{Globals}.

(** [build] on an application whose routes are a route list. *)
Lemma build_run app rs base_url (h : heap) :
  h !! App_routes app = Some (ObjRoutes rs) →
  ∃ url h',
    get_schema_url (App_routes app) base_url h = (Return url, h) ∧
    build app base_url h
    = (match content_of h rs with
       | Return d => Return (mkDocument (default "" url) d)
       | Raise e => Raise e
       end, h') ∧
    h ⊆ h'.
Proof.
  intros Hrs. unfold build. cbv zeta. rewrite bind_run.
  rewrite (get_schema_url_result _ rs) by done.
  destruct (get_schema_url_loop_run rs base_url h) as (url & Hurl & _).
  rewrite Hurl. exists url.
  destruct (get_schema_content_run _ rs h Hrs) as (h' & Hrun & Hc & _ & Hsub).
  exists h'. split; [done|]. split; [|done].
  cbv beta iota. rewrite bind_run, Hrun. unfold content_of.
  destruct (collect (entry_of h) rs []) as [pairs [e|]]; [done|].
  cbn [fst snd] in *. cbv beta iota. rewrite bind_run. unfold dict_items.
  by rewrite Hc.
Qed.

(** X12. [APISchema.build] composes the two functions on the routes of the
    application: it returns a document exactly when [get_schema_content]
    returns; the url of the document is then the url [get_schema_url]
    returns, or [''] when that is [None], and its content holds the entries
    of that dictionary; an exception of [get_schema_content] is passed on;
    the objects of the heap are left as they were. *)
Theorem build_document app rs base_url (h : heap) :
  h !! App_routes app = Some (ObjRoutes rs) →
  (∀ doc,
     (build app base_url h).1 = Return doc ↔
     ∃ url,
       (get_schema_url (App_routes app) base_url h).1 = Return url ∧
       document_url doc = default "" url ∧
       returned_content (get_schema_content (App_routes app) h)
         = Return (document_content doc)) ∧
  (∀ e,
     (build app base_url h).1 = Raise e ↔
     returned_content (get_schema_content (App_routes app) h) = Raise e) ∧
  h ⊆ (build app base_url h).2.
Proof.
  intros Hrs.
  destruct (build_run app rs base_url h Hrs) as (url & h' & Hurl & Hrun & Hsub).
  rewrite Hrun, Hurl, (returned_content_run _ rs h Hrs). cbn [fst snd].
  split; [|split; [|done]].
  - intros [url' d']. simpl.
    destruct (content_of h rs) as [d|e].
    + split.
      * intros [= <- <-]. by exists url.
      * by intros (url0 & [= <-] & -> & [= ->]).
    + split; [done|]. by intros (url0 & _ & _ & ?).
  - intros e. by destruct (content_of h rs) as [d|e']; split; intros [=]; subst.
Qed.

(** X13. The document points to the schema endpoint without describing it:
    its url is [urljoin(base_url, path)] for the first route that serves
    [serve_schema], and [''] when no route does; and, once the module is
    loaded, every entry of its content is the link of a route whose view is
    none of [serve_schema], [serve_schema_js] and [serve_docs]. *)
Theorem build_schema_endpoint app rs base_url (h : heap) doc :
  module_loaded h →
  h !! App_routes app = Some (ObjRoutes rs) →
  (build app base_url h).1 = Return doc →
  ((∀ route, route ∈ rs → view route ≠ serve_schema) →
   document_url doc = "") ∧
  (∀ rs1 route rs2,
     rs = rs1 ++ route :: rs2 →
     (∀ route', route' ∈ rs1 → view route' ≠ serve_schema) →
     view route = serve_schema →
     document_url doc = urljoin base_url (path route)) ∧
  (∀ key link, document_content doc !! key = Some link →
     ∃ route, route ∈ rs ∧
              (view route ∉ [serve_schema; serve_schema_js; serve_docs]) ∧
              (get_link route h).1 = Return link).
Proof.
  intros Hloaded Hrs.
  destruct (build_run app rs base_url h Hrs) as (url & h' & Hurl & -> & _).
  cbn [fst]. destruct (content_of h rs) as [d|e] eqn:Hd; [|done].
  intros [= <-]. simpl.
  rewrite (get_schema_url_result _ rs) in Hurl by done.
  destruct (get_schema_url_loop_run rs base_url h)
    as (url' & Hurl' & Hnone & Hfirst).
  rewrite Hurl in Hurl'. injection Hurl' as <-.
  split; [|split].
  - intros Hall. by rewrite (proj2 Hnone Hall).
  - intros rs1 route rs2 Hsplit Hbefore Hview.
    by rewrite (Hfirst rs1 route rs2 Hsplit Hbefore Hview).
  - intros key link Hkey.
    destruct (content_of_entry h rs d key link Hd Hkey)
      as (route & f & Hroute & _ & Hex & _ & Hlink).
    exists route. split; [done|]. split; [|done].
    intros Hv. by rewrite (module_loaded_excluded h _ Hloaded Hv) in Hex.
Qed.



(** X15. The form rendered for a link [get_link] returns has one string
    property per field of the link and nothing else, and no required
    property, although the ['path'] and ['body'] fields of the link are
    required. *)
Theorem render_form_of_get_link route (h h' : heap) link :
  get_link route h = (Return link, h') →
  ∃ properties,
    render_form_schema link = coreschema.Object properties [] ∧
    ∀ name,
      properties !! name =
        if bool_decide (name ∈ field_name <$> link_fields link)
        then Some coreschema.String else None.
Proof.
  intros Hrun. unfold render_form_schema. eexists. split; [done|].
  intros name.
  pose (val := λ field : Field, default coreschema.String (field_schema field)).
  case_bool_decide as Hname.
  - change (dict (map (λ field, (field_name field, val field))
                      (link_fields link)) !! name = Some coreschema.String).
    destruct (dict _ !! name) as [s|] eqn:Hs.
    + apply dict_lookup_elem, list_elem_of_In, in_map_iff in Hs
        as (field & [= <- <-] & Hfield%list_elem_of_In).
      destruct (get_link_field _ _ _ _ _ Hrun Hfield)
        as (f & param & location & required & _ & _ & _ & ->).
      by unfold val.
    + apply dict_lookup_None in Hs.
      by rewrite (map_pair_keys field_name val) in Hs.
  - by rewrite dict_lookup_None, (map_pair_keys field_name val).
Qed.

End documents.

(** ** The further properties on the example application *)

Section more_examples.
Import Example.

(** The field of the parameter [user] of [create_user]. *)
Lemma get_link_field_invariant_witness :
  field_location (mkField "user" "body" true (Some coreschema.String))
    ∈ ["path"; "query"; "form"; "body"].
Proof.
  unshelve epose proof
    (get_link_field_invariant create_user_route app_heap
       (get_link create_user_route app_heap).2 create_user_link
       (mkField "user" "body" true (Some coreschema.String)) _ _) as W.
  - vm_compute. reflexivity.
  - apply list_elem_of_here.
  - exact (proj1 W).
Defined.

(** The link of [create_user], routed with POST, has no query field. *)
Lemma get_link_method_locations_witness :
  field_location (mkField "note" "form" false (Some coreschema.String))
    ∈ ["path"; "form"; "body"].
Proof.
  unshelve epose proof
    (get_link_method_locations create_user_route app_heap
       (get_link create_user_route app_heap).2 create_user_link
       (mkField "note" "form" false (Some coreschema.String)) _ _) as W.
  - vm_compute. reflexivity.
  - apply list_elem_of_further, list_elem_of_here.
  - exact W.
Defined.

(** The injected [request] of [get_user] is left out of its link. *)
Lemma get_link_omits_parameter_witness :
  Forall (λ field, field_name field ≠ "request") (link_fields get_user_link).
Proof.
  unshelve epose proof
    (get_link_omits_parameter app_heap (get_link get_user_route app_heap).2
       get_user_route get_user
       (mkParameter "request" (Some (PyClass Request))) get_user_link
       _ _ _ _ _ _ _) as W.
  - reflexivity.
  - by_computation.
  - by_computation.
  - by_computation.
  - reflexivity.
  - reflexivity.
  - vm_compute. reflexivity.
  - apply Forall_forall. exact W.
Defined.

(** The two fields of the link of [get_user], out of three parameters. *)
Lemma get_link_fields_follow_parameters_witness :
  field_name <$> link_fields get_user_link
    `sublist_of` param_name <$> parameters get_user.
Proof.
  unshelve epose proof
    (get_link_fields_follow_parameters app_heap
       (get_link get_user_route app_heap).2 get_user_route get_user
       get_user_link _ _) as W.
  - reflexivity.
  - vm_compute. reflexivity.
  - exact (proj1 W).
Defined.

(** The hidden copy of [get_user] gets the same link when asked for. *)
Lemma get_link_reads_parameters_only_witness :
  (get_link get_user_route more_heap).1
  = (get_link (mkRoute "/users/{user_id}" "GET" 9%positive) more_heap).1.
Proof.
  apply (get_link_reads_parameters_only more_heap more_heap get_user_route
           (mkRoute "/users/{user_id}" "GET" 9%positive)
           get_user get_user_hidden); reflexivity.
Defined.

(** [get_schema_content] returns on the example application. *)
Lemma get_schema_content_returns_iff_witness :
  ∃ d, returned_content (get_schema_content routes app_heap) = Return d.
Proof.
  unshelve epose proof
    (get_schema_content_returns_iff app_heap routes app_routes _) as W.
  - reflexivity.
  - apply W. intros route Hroute Hex.
    repeat (apply elem_of_cons in Hroute as [->|Hroute]);
      try (by apply elem_of_nil in Hroute);
      try (vm_compute in Hex; discriminate);
      (split; [eexists _, _; split; reflexivity
              |eexists; vm_compute; reflexivity]).
Defined.

(** The view without [__name__] makes the whole call raise
    [AttributeError], although [get_link] returns on its route. *)
Lemma get_schema_content_first_failure_witness :
  (get_schema_content partial_routes more_heap).1 = Raise AttributeError.
Proof.
  unshelve epose proof
    (get_schema_content_first_failure more_heap partial_routes
       [get_user_route] partial_route [] _ _ _) as W.
  - reflexivity.
  - intros route Hroute Hex.
    apply elem_of_cons in Hroute as [->|Hroute];
      [|by apply elem_of_nil in Hroute].
    split; [eexists _, _; split; reflexivity|].
    eexists. vm_compute. reflexivity.
  - reflexivity.
  - apply (proj1 W). reflexivity.
Defined.

(** The schema content of the example application is not empty. *)
Lemma get_schema_content_keys_witness :
  app_content = ∅ ↔
  ∀ route, route ∈ app_routes → view_excluded app_heap (view route) = true.
Proof.
  unshelve epose proof
    (get_schema_content_keys app_heap routes app_routes app_content _ _) as W.
  - reflexivity.
  - vm_compute. reflexivity.
  - exact (proj2 W).
Defined.

(** The two mounts of [get_user], one after the other. *)
Lemma get_schema_content_app_witness :
  returned_content (get_schema_content mounted_twice more_heap)
  = Return (dict [("get_user", second_mount_link)]
              ∪ dict [("get_user", get_user_link)]).
Proof.
  unshelve epose proof
    (get_schema_content_app more_heap first_mount_only second_mount_only
       mounted_twice [get_user_route] [second_mount]
       (dict [("get_user", get_user_link)])
       (dict [("get_user", second_mount_link)]) _ _ _ _ _) as W.
  - reflexivity.
  - reflexivity.
  - reflexivity.
  - vm_compute. reflexivity.
  - vm_compute. reflexivity.
  - exact W.
Defined.

(** The dictionary of the example application is a new object. *)
Lemma get_schema_content_fresh_witness :
  app_heap !! fresh (dom app_heap) = None.
Proof.
  unshelve epose proof
    (get_schema_content_fresh routes app_heap
       (get_schema_content routes app_heap).2 (fresh (dom app_heap)) _) as W.
  - vm_compute. reflexivity.
  - exact (proj1 W).
Defined.

(** The schema url of the example application comes from its second half. *)
Lemma get_schema_url_app_witness :
  (get_schema_url routes (Some "http://example.org") more_heap).1 =
    match (get_schema_url user_routes (Some "http://example.org") more_heap).1 with
    | Return None =>
        (get_schema_url endpoint_routes (Some "http://example.org") more_heap).1
    | url => url
    end.
Proof.
  apply (get_schema_url_app more_heap user_routes endpoint_routes routes
           [get_user_route; create_user_route] [schema_route; docs_route]);
    reflexivity.
Defined.

(** The document of an application that does not serve its schema: its url
    is the empty string. *)
Lemma build_document_witness :
  (build (mkApp mounted_twice) (Some "http://example.org") app_heap).1
  = Return (mkDocument "" (dict [("get_user", second_mount_link)])).
Proof.
  unshelve epose proof
    (build_document (mkApp mounted_twice) [get_user_route; second_mount]
       (Some "http://example.org") app_heap _)
    as (W & _).
  - reflexivity.
  - apply (W (mkDocument "" (dict [("get_user", second_mount_link)]))).
    exists None. repeat split; vm_compute; reflexivity.
Defined.

(** The url of the document of the example application is that of its
    schema route. *)
Lemma build_schema_endpoint_witness :
  document_url (mkDocument "http://example.org/schema" app_content)
  = urljoin (Some "http://example.org") (path schema_route).
Proof.
  unshelve epose proof
    (build_schema_endpoint app app_routes (Some "http://example.org") app_heap
       (mkDocument "http://example.org/schema" app_content) _ _ _) as W.
  - repeat split.
  - reflexivity.
  - vm_compute. reflexivity.
  - apply (proj1 (proj2 W) [get_user_route; create_user_route] schema_route
             [docs_route]); [reflexivity| |reflexivity].
    intros route' Hroute'.
    repeat (apply elem_of_cons in Hroute' as [->|Hroute']);
      try (by apply elem_of_nil in Hroute'); vm_compute; discriminate.
Defined.


(** The form of the link of [get_user]. *)
Lemma render_form_of_get_link_witness :
  ∃ properties,
    render_form_schema get_user_link = coreschema.Object properties [] ∧
    ∀ name,
      properties !! name =
        if bool_decide (name ∈ field_name <$> link_fields get_user_link)
        then Some coreschema.String else None.
Proof.
  apply (render_form_of_get_link get_user_route app_heap
           (get_link get_user_route app_heap).2 get_user_link).
  vm_compute. reflexivity.
Defined.

End more_examples.
